(** * Plot-job orchestrator: [chia/plotting/create_plot.py]

    A shallow embedding of [create_plot] and its two key helpers, with the
    operating system (file system, working directory, clock, random source),
    the key store, the BLS primitives and the external plotting engine made
    explicit.  Python's mutation of [args], its exceptions and its log
    output are threaded through a small state-and-exception monad. *)

From Stdlib Require Import ZArith Lia Ascii String.
From stdpp Require Import base option list strings gmap fin_maps pretty.

Local Open Scope Z_scope.
Local Open Scope string_scope.
Local Open Scope list_scope.

(** ** Bytes, hexadecimal text and decimal text *)

Abbreviation bytes := (list Byte.byte).

Definition hex_digit (n : N) : ascii :=
  ascii_of_N (if (n <? 10)%N then 48 + n else 87 + n)%N.

Definition hex_of_byte (b : Byte.byte) : string :=
  let n := Byte.to_N b in
  String (hex_digit (n / 16)) (String (hex_digit (n mod 16)) EmptyString).

(** [bytes.hex()] *)
Definition bytes_hex (b : bytes) : string :=
  foldr (fun x acc => hex_of_byte x +:+ acc) EmptyString b.

Definition hex_value (c : ascii) : option N :=
  let n := N_of_ascii c in
  if ((48 <=? n) && (n <=? 57))%N then Some (n - 48)%N
  else if ((97 <=? n) && (n <=? 102))%N then Some (n - 87)%N
  else if ((65 <=? n) && (n <=? 70))%N then Some (n - 55)%N
  else None.

Definition is_ascii_space (c : ascii) : bool :=
  let n := N_of_ascii c in
  ((n =? 32) || ((9 <=? n) && (n <=? 13)))%N.

(** [bytes.fromhex(s)]: pairs of hexadecimal digits, ASCII white space
    allowed between the pairs; [None] stands for Python's [ValueError]. *)
Fixpoint bytes_fromhex (s : string) : option bytes :=
  match s with
  | EmptyString => Some []
  | String c rest =>
      if is_ascii_space c then bytes_fromhex rest
      else
        match rest with
        | EmptyString => None
        | String d rest' =>
            match hex_value c, hex_value d, bytes_fromhex rest' with
            | Some hi, Some lo, Some tl =>
                match Byte.of_N (16 * hi + lo) with
                | Some b => Some (b :: tl)
                | None => None
                end
            | _, _, _ => None
            end
        end
  end.

(** [str(n)] for a Python [int] *)
Definition str_int (n : Z) : string := pretty n.

(** [f"{n:02d}"]-style zero padding used by [strftime] *)
Definition pad2 (n : Z) : string :=
  if ((0 <=? n) && (n <? 10))%Z then "0" +:+ str_int n else str_int n.

Definition pad4 (n : Z) : string :=
  if ((0 <=? n) && (n <? 10))%Z then "000" +:+ str_int n
  else if ((0 <=? n) && (n <? 100))%Z then "00" +:+ str_int n
  else if ((0 <=? n) && (n <? 1000))%Z then "0" +:+ str_int n
  else str_int n.

(** ** [pathlib.Path]

    A path is its anchor (absolute or relative) and its components.  Paths
    are taken in normal form: no [..] component and no symbolic link. *)

Record Path := mkPath { anchored : bool; parts : list string }.

#[global] Instance Path_eq_dec : EqDecision Path.
Proof. solve_decision. Defined.

Definition join_parts (l : list string) : string :=
  match l with
  | [] => EmptyString
  | c :: l' => foldl (fun acc x => acc +:+ "/" +:+ x) c l'
  end.

(** [str(path)] *)
Definition path_str (p : Path) : string :=
  if anchored p then "/" +:+ join_parts (parts p)
  else match parts p with [] => "." | _ => join_parts (parts p) end.

(** [path.name]: the final component, empty for a root or [Path('.')] *)
Definition path_name (p : Path) : string :=
  default EmptyString (last (parts p)).

(** [path.parent] *)
Definition path_parent (p : Path) : Path :=
  mkPath (anchored p) (removelast (parts p)).

(** ** The file system *)

Inductive Node :=
| NFile
| NDir (locked : bool).

#[global] Instance Node_eq_dec : EqDecision Node.
Proof. solve_decision. Defined.

(** Keys are absolute component lists; the root [[]] always exists. *)
Abbreviation FS := (gmap (list string) Node).

Definition resolve (cwd : list string) (p : Path) : list string :=
  if anchored p then parts p else cwd ++ parts p.

Definition fs_node (fs : FS) (k : list string) : option Node :=
  match k with
  | [] => Some (NDir true)
  | _ => fs !! k
  end.

Definition fs_exists (fs : FS) (k : list string) : bool :=
  bool_decide (is_Some (fs_node fs k)).

Definition strictly_below (k q : list string) : Prop :=
  k `prefix_of` q ∧ q ≠ k.

#[global] Instance strictly_below_dec k q : Decision (strictly_below k q).
Proof. unfold strictly_below. apply _. Defined.

(** A directory is empty when no entry lies below it. *)
Definition dir_empty (fs : FS) (k : list string) : bool :=
  bool_decide (map_Forall (fun q _ => ¬ strictly_below k q) fs).

(** [os.rmdir]: only an existing, unlocked, empty directory goes away;
    [None] stands for [OSError]. *)
Definition fs_rmdir (fs : FS) (k : list string) : option FS :=
  match fs_node fs k with
  | Some (NDir false) => if dir_empty fs k then Some (delete k fs) else None
  | _ => None
  end.

(** Modelled from the spec: [chia.util.path.mkdir], which is not among the
    sources; the temp directories are created "recursively" and the final
    directory is "created if missing".  Every missing ancestor is created,
    an existing directory is left alone, and a file in the way is an
    [OSError] ([None]). *)
Fixpoint fs_mkdirs (above todo : list string) (fs : FS) : option FS :=
  match todo with
  | [] => Some fs
  | c :: todo' =>
      let d := (above ++ [c])%list in
      match fs !! d with
      | Some NFile => None
      | Some (NDir _) => fs_mkdirs d todo' fs
      | None => fs_mkdirs d todo' (<[d := NDir false]> fs)
      end
  end.

Definition fs_mkdir (fs : FS) (k : list string) : option FS :=
  fs_mkdirs [] k fs.

(** ** Exceptions, observable events and the state of the world *)

Inductive Exn :=
| RuntimeError (msg : string)
| AssertionError
| NameError (name : string)
| AttributeError (attr : string)
| KeyError (key : string)
| ValueError
| OSError.

#[global] Instance Exn_eq_dec : EqDecision Exn.
Proof. solve_decision. Defined.

Inductive Level := INFO | WARNING.

(** The three entry points of the external plotting engine ([DiskPlotter]
    and [PipelineDiskPlotter] of [chiapos]) with the arguments they get. *)
Inductive EngineCall :=
| create_plot_disk
    (tmp_dirname tmp2_dirname final_dirname filename : string) (k : Z)
    (memo id : bytes) (buffer buckets stripe_size num_threads : Z)
    (nobitfield : bool)
| create_plot_disk_phase1
    (tmp_dirname tmp2_dirname final_dirname filename : string) (k : Z)
    (memo id : bytes) (buffer buckets stripe_size num_threads : Z)
    (nobitfield : bool)
| create_plot_disk_phase234
    (tmp_dirname tmp2_dirname final_dirname filename : string) (k : Z)
    (buffer buckets stripe_size : Z) (nobitfield : bool).

Definition call_final_dirname (c : EngineCall) : string :=
  match c with
  | create_plot_disk _ _ d _ _ _ _ _ _ _ _ _ => d
  | create_plot_disk_phase1 _ _ d _ _ _ _ _ _ _ _ _ => d
  | create_plot_disk_phase234 _ _ d _ _ _ _ _ _ => d
  end.

Definition call_filename (c : EngineCall) : string :=
  match c with
  | create_plot_disk _ _ _ f _ _ _ _ _ _ _ _ => f
  | create_plot_disk_phase1 _ _ _ f _ _ _ _ _ _ _ _ => f
  | create_plot_disk_phase234 _ _ _ f _ _ _ _ _ => f
  end.

Definition call_k (c : EngineCall) : Z :=
  match c with
  | create_plot_disk _ _ _ _ k _ _ _ _ _ _ _ => k
  | create_plot_disk_phase1 _ _ _ _ k _ _ _ _ _ _ _ => k
  | create_plot_disk_phase234 _ _ _ _ k _ _ _ _ => k
  end.

Inductive Event :=
| EvLog (lvl : Level) (msg : string)
| EvPrint (msg : string)
| EvKeychainFirst
| EvKeychainByFingerprint (fingerprint : Z)
| EvMkdir (k : list string)
| EvRmdir (k : list string)
| EvEngine (c : EngineCall).

Definition is_engine (e : Event) : bool :=
  match e with EvEngine _ => true | _ => false end.

Definition is_rmdir (e : Event) : bool :=
  match e with EvRmdir _ => true | _ => false end.

Definition is_keychain (e : Event) : bool :=
  match e with
  | EvKeychainFirst | EvKeychainByFingerprint _ => true
  | _ => false
  end.

(** [datetime.now()] as the fields [strftime] reads *)
Record DateTime := mkDateTime {
  year : Z; month : Z; day : Z; hour : Z; minute : Z; second : Z }.

(** [dt.strftime("%Y-%m-%d-%H-%M")] *)
Definition strftime_minute (dt : DateTime) : string :=
  pad4 (year dt) +:+ "-" +:+ pad2 (month dt) +:+ "-" +:+ pad2 (day dt)
  +:+ "-" +:+ pad2 (hour dt) +:+ "-" +:+ pad2 (minute dt).

Record World := mkWorld {
  w_fs : FS;                 (* what is on disk *)
  w_cwd : list string;       (* the process's working directory *)
  w_now : DateTime;          (* the wall clock *)
  w_rng : N;                 (* state of the OS random source *)
  w_trace : list Event       (* what the job did so far, oldest first *)
}.

Definition with_fs (fs : FS) (w : World) : World :=
  mkWorld fs (w_cwd w) (w_now w) (w_rng w) (w_trace w).

Definition with_rng (r : N) (w : World) : World :=
  mkWorld (w_fs w) (w_cwd w) (w_now w) r (w_trace w).

Definition emit (e : Event) (w : World) : World :=
  mkWorld (w_fs w) (w_cwd w) (w_now w) (w_rng w) (w_trace w ++ [e]).

Definition engine_calls (w : World) : list Event := filter is_engine (w_trace w).
Definition rmdir_attempts (w : World) : list Event := filter is_rmdir (w_trace w).
Definition keychain_lookups (w : World) : list Event :=
  filter is_keychain (w_trace w).

(** ** A state-and-exception monad

    A computation runs in a world and either returns a value or raises;
    the world it leaves behind is kept in both cases. *)

Definition M (A : Type) : Type := World -> (Exn + A) * World.

#[global] Instance M_ret : MRet M := fun A a w => (inr a, w).

#[global] Instance M_bind : MBind M := fun A B f m w =>
  match m w with
  | (inr a, w') => f a w'
  | (inl e, w') => (inl e, w')
  end.

Definition raise {A} (e : Exn) : M A := fun w => (inl e, w).

(** [try: body  except Exception: handler] *)
Definition try_except {A} (body : M A) (handler : M A) : M A := fun w =>
  match body w with
  | (inr a, w') => (inr a, w')
  | (inl _, w') => handler w'
  end.

Definition lift_opt {A} (e : Exn) (o : option A) : M A :=
  match o with Some a => mret a | None => raise e end.

(** [assert b] *)
Definition py_assert (b : bool) : M unit :=
  if b then mret tt else raise AssertionError.

Definition log (lvl : Level) (msg : string) : M unit :=
  fun w => (inr tt, emit (EvLog lvl msg) w).

Definition print (msg : string) : M unit :=
  fun w => (inr tt, emit (EvPrint msg) w).

(** [path.exists()] *)
Definition path_exists (p : Path) : M bool :=
  fun w => (inr (fs_exists (w_fs w) (resolve (w_cwd w) p)), w).

(** [Path.cwd()] *)
Definition path_cwd : M Path :=
  fun w => (inr (mkPath true (w_cwd w)), w).

(** [mkdir(path)] of [chia.util.path] *)
Definition mkdir (p : Path) : M unit := fun w =>
  let k := resolve (w_cwd w) p in
  let w := emit (EvMkdir k) w in
  match fs_mkdir (w_fs w) k with
  | Some fs' => (inr tt, with_fs fs' w)
  | None => (inl OSError, w)
  end.

(** [path.rmdir()] *)
Definition rmdir (p : Path) : M unit := fun w =>
  let k := resolve (w_cwd w) p in
  let w := emit (EvRmdir k) w in
  match fs_rmdir (w_fs w) k with
  | Some fs' => (inr tt, with_fs fs' w)
  | None => (inl OSError, w)
  end.

(** [datetime.now()] *)
Definition datetime_now : M DateTime := fun w => (inr (w_now w), w).

(** Reading an attribute of a value that may be [None] *)
Definition attr_of {A} (name : string) (o : option A) : M A :=
  lift_opt (AttributeError name) o.

Definition str_bool (b : bool) : string := if b then "True" else "False".

Definition str_opt {A} (f : A -> string) (o : option A) : string :=
  match o with Some a => f a | None => "None" end.

(** ** The collaborators the module imports *)

(** [blspy], [chia.wallet.derive_keys], [ProofOfSpace], the memo writers of
    [chia.plotting.plot_tools] and [chia.util.bech32m.decode_puzzle_hash].
    A decoder returns [None] where the Python raises [ValueError]. *)
Record Crypto := {
  PrivateKey : Type;
  G1Element : Type;
  g1_from_bytes : bytes -> option G1Element;
  g1_bytes : G1Element -> bytes;
  get_g1 : PrivateKey -> G1Element;
  key_gen : bytes -> PrivateKey;
  master_sk_to_farmer_sk : PrivateKey -> PrivateKey;
  master_sk_to_pool_sk : PrivateKey -> PrivateKey;
  master_sk_to_local_sk : PrivateKey -> PrivateKey;
  generate_plot_public_key : G1Element -> G1Element -> G1Element;
  calculate_plot_id_pk : G1Element -> G1Element -> bytes;
  calculate_plot_id_ph : bytes -> G1Element -> bytes;
  stream_plot_info_pk : G1Element -> G1Element -> PrivateKey -> bytes;
  stream_plot_info_ph : bytes -> G1Element -> PrivateKey -> bytes;
  decode_puzzle_hash : string -> option bytes
}.

(** The key store, the configuration loader, the OS random source and the
    plotting engine.  The engine may change the disk and may raise. *)
Record Services (C : Crypto) := {
  get_private_key_by_fingerprint : Z -> option (PrivateKey C * bytes);
  get_first_private_key : option (PrivateKey C * bytes);
  config_path_for_filename : Path -> string -> Path;
  load_config : Path -> Path -> Exn + gmap string Z;
  token_bytes : nat -> N -> bytes * N;
  engine : EngineCall -> list string -> FS -> FS * option Exn
}.

Arguments get_private_key_by_fingerprint {C}.
Arguments get_first_private_key {C}.
Arguments config_path_for_filename {C}.
Arguments load_config {C}.
Arguments token_bytes {C}.
Arguments engine {C}.

(** Modelled from the spec: [bytes32] of
    [chia.types.blockchain_format.sized_bytes], which is not among the
    sources; the plot ID is a "32-byte identifier", so any other length is
    refused ([ValueError]). *)
Definition bytes32 (b : bytes) : option bytes :=
  if decide (length b = 32%nat) then Some b else None.

(** ** The job parameters: class [Params] of [chia/plotter/plotter.py],
    together with the [filename] attribute that [create_plot] reads at line
    104.  The class itself sets no such attribute; the statements below are
    about jobs whose [args] carries one. *)

Module Params.
Record t := mk {
    size : Z;
    buffer : Z;
    num_threads : Z;
    buckets : Z;
    stripe_size : Z;
    alt_fingerprint : option Z;
    pool_contract_address : option string;
    farmer_public_key : option string;
    pool_public_key : option string;
    tmp_dir : Path;
    tmp2_dir : option Path;
    final_dir : Path;
    plotid : option string;
    memo : option string;
    nobitfield : bool;
    exclude_final_dir : bool;
    phase : Z;
    filename : Path
  }.

  (** [args.size = k] *)
Definition set_size (k : Z) (a : t) : t :=
    mk k (buffer a) (num_threads a) (buckets a) (stripe_size a)
       (alt_fingerprint a) (pool_contract_address a) (farmer_public_key a)
       (pool_public_key a) (tmp_dir a) (tmp2_dir a) (final_dir a) (plotid a)
       (memo a) (nobitfield a) (exclude_final_dir a) (phase a) (filename a).

  (** [args.tmp2_dir = d] *)
Definition set_tmp2_dir (d : option Path) (a : t) : t :=
    mk (size a) (buffer a) (num_threads a) (buckets a) (stripe_size a)
       (alt_fingerprint a) (pool_contract_address a) (farmer_public_key a)
       (pool_public_key a) (tmp_dir a) d (final_dir a) (plotid a)
       (memo a) (nobitfield a) (exclude_final_dir a) (phase a) (filename a).
End Params.

(** The local variables of [create_plot] that are live at line 144; [args]
    is the caller's object after the assignments of lines 52 and 80. *)
Module Locals.
Record t (C : Crypto) := mk {
    args : Params.t;
    farmer_public_key : G1Element C;
    pool_public_key : option (G1Element C);
    pool_contract_puzzle_hash : option bytes;
    tmp_dir_created : bool;
    tmp2_dir_created : bool;
    full_path : Path;
    filename : string;
    final_dir : Path;
    sk : PrivateKey C;
    plot_public_key : G1Element C;
    plot_id : bytes;
    plot_memo : bytes;
    dt_string : string
  }.
Arguments mk {C}.
Arguments args {C}.
Arguments farmer_public_key {C}.
Arguments pool_public_key {C}.
Arguments pool_contract_puzzle_hash {C}.
Arguments tmp_dir_created {C}.
Arguments tmp2_dir_created {C}.
Arguments full_path {C}.
Arguments filename {C}.
Arguments final_dir {C}.
Arguments sk {C}.
Arguments plot_public_key {C}.
Arguments plot_id {C}.
Arguments plot_memo {C}.
Arguments dt_string {C}.
End Locals.

(** ** [chia/plotting/create_plot.py] *)

Section CreatePlot.

Context {C : Crypto} (S : Services C).

(** [Keychain().get_private_key_by_fingerprint(fp)] *)
Definition keychain_by_fingerprint (fp : Z) : M (option (PrivateKey C * bytes)) :=
  fun w => (inr (get_private_key_by_fingerprint S fp),
            emit (EvKeychainByFingerprint fp) w).

(** [Keychain().get_first_private_key()] *)
Definition keychain_first : M (option (PrivateKey C * bytes)) :=
  fun w => (inr (get_first_private_key S), emit EvKeychainFirst w).

Definition no_keys_f : string :=
  "No keys, please run 'chia keys add', 'chia keys generate' or provide a public key with -f".

Definition no_keys_p : string :=
  "No keys, please run 'chia keys add', 'chia keys generate' or provide a public key with -p".

Definition choose_one : string :=
  "Choose one of pool_contract_address and pool_public_key".

(** Lines 23-32 *)
Definition get_farmer_public_key (alt_fingerprint : option Z) : M (G1Element C) :=
  sk_ent ← match alt_fingerprint with
           | Some fp => keychain_by_fingerprint fp
           | None => keychain_first
           end;
  match sk_ent with
  | None => raise (RuntimeError no_keys_f)
  | Some (sk, _) => mret (get_g1 C (master_sk_to_farmer_sk C sk))
  end.

(** Lines 35-44 *)
Definition get_pool_public_key (alt_fingerprint : option Z) : M (G1Element C) :=
  sk_ent ← match alt_fingerprint with
           | Some fp => keychain_by_fingerprint fp
           | None => keychain_first
           end;
  match sk_ent with
  | None => raise (RuntimeError no_keys_p)
  | Some (sk, _) => mret (get_g1 C (master_sk_to_pool_sk C sk))
  end.

(** [G1Element.from_bytes(bytes.fromhex(s))] *)
Definition g1_from_hex (s : string) : M (G1Element C) :=
  b ← lift_opt ValueError (bytes_fromhex s);
  lift_opt ValueError (g1_from_bytes C b).

(** Lines 51-52 *)
Definition default_tmp2_dir (args : Params.t) : Params.t :=
  match Params.tmp2_dir args with
  | None => Params.set_tmp2_dir (Some (Params.tmp_dir args)) args
  | Some _ => args
  end.

(** Lines 54-58 *)
Definition resolve_farmer_key (args : Params.t) : M (G1Element C) :=
  match Params.farmer_public_key args with
  | Some s => g1_from_hex s
  | None => get_farmer_public_key (Params.alt_fingerprint args)
  end.

(** Lines 60-74: the pair (pool_public_key, pool_contract_puzzle_hash) *)
Definition resolve_pool (args : Params.t)
  : M (option (G1Element C) * option bytes) :=
  '(pool_public_key, pool_contract_puzzle_hash) ←
    match Params.pool_public_key args with
    | Some s =>
        match Params.pool_contract_address args with
        | Some _ => raise (RuntimeError choose_one)
        | None => pk ← g1_from_hex s; mret (Some pk, None)
        end
    | None =>
        match Params.pool_contract_address args with
        | None =>
            pk ← get_pool_public_key (Params.alt_fingerprint args);
            mret (Some pk, None)
        | Some addr =>
            ph ← lift_opt ValueError (decode_puzzle_hash C addr);
            mret (None, Some ph)
        end
    end;
  py_assert (negb (eqb (bool_decide (pool_public_key = None))
                       (bool_decide (pool_contract_puzzle_hash = None))));;
  mret (pool_public_key, pool_contract_puzzle_hash).


(** Lines 76-80; the result is [args] after the assignment of line 80 *)
Definition enforce_size (args : Params.t) (config : gmap string Z)
    (test_private_keys : option (list (PrivateKey C))) : M Params.t :=
  min_k ← lift_opt (KeyError "min_mainnet_k_size")
                   (config !! "min_mainnet_k_size");
  (if (Params.size args <? min_k)%Z && bool_decide (test_private_keys = None)
   then log WARNING ("Creating plots with size k=" +:+ str_int (Params.size args)
                     +:+ ", which is less than the minimum required for mainnet")
   else mret tt);;
  if (Params.size args <? 22)%Z then
    log WARNING "k under 22 is not supported. Increasing k to 22";;
    mret (Params.set_size 22 args)
  else mret args.

(** Lines 82-92 *)
Definition log_plan (args : Params.t) (farmer_public_key : G1Element C)
    (pool_public_key : option (G1Element C))
    (pool_contract_puzzle_hash : option bytes) : M unit :=
  match pool_public_key with
  | Some pk =>
      log INFO ("Creating 1 plots of size " +:+ str_int (Params.size args)
                +:+ ", pool public key:  " +:+ bytes_hex (g1_bytes C pk)
                +:+ " farmer public key: "
                +:+ bytes_hex (g1_bytes C farmer_public_key))
  | None =>
      py_assert (bool_decide (pool_contract_puzzle_hash ≠ None));;
      log INFO ("Creating 1 plots of size " +:+ str_int (Params.size args)
                +:+ ", pool contract address:  "
                +:+ str_opt id (Params.pool_contract_address args)
                +:+ " farmer public key: "
                +:+ bytes_hex (g1_bytes C farmer_public_key))
  end.

(** Lines 94-102: the pair (tmp_dir_created, tmp2_dir_created) *)
Definition make_temp_dirs (args : Params.t) : M (bool * bool) :=
  tmp_exists ← path_exists (Params.tmp_dir args);
  tmp_dir_created ←
    (if negb tmp_exists
     then mkdir (Params.tmp_dir args);; mret true
     else mret false);
  tmp2 ← attr_of "exists" (Params.tmp2_dir args);
  tmp2_exists ← path_exists tmp2;
  tmp2_dir_created ←
    (if negb tmp2_exists
     then mkdir tmp2;; mret true
     else mret false);
  mret (tmp_dir_created, tmp2_dir_created).

(** [token_bytes(n)] of [secrets] *)
Definition os_token_bytes (n : nat) : M bytes := fun w =>
  let '(b, r) := token_bytes S n (w_rng w) in (inr b, with_rng r w).

(** Lines 111-116; [num] and [i] are bound nowhere in the module, so the
    test-key branch stops at the first of them. *)
Definition choose_sk (test_private_keys : option (list (PrivateKey C)))
  : M (PrivateKey C) :=
  match test_private_keys with
  | Some _ => raise (NameError "num")
  | None => seed ← os_token_bytes 32; mret (key_gen C seed)
  end.

(** Lines 121-140: the pair (plot_id, plot_memo) *)
Definition derive_identity (args : Params.t) (farmer_public_key : G1Element C)
    (pool_public_key : option (G1Element C))
    (pool_contract_puzzle_hash : option bytes)
    (sk : PrivateKey C) (plot_public_key : G1Element C) : M (bytes * bytes) :=
  '(plot_id, plot_memo) ←
    match pool_public_key with
    | Some pk =>
        mret (calculate_plot_id_pk C pk plot_public_key,
              stream_plot_info_pk C pk farmer_public_key sk)
    | None =>
        match pool_contract_puzzle_hash with
        | None => raise AssertionError
        | Some ph =>
            mret (calculate_plot_id_ph C ph plot_public_key,
                  stream_plot_info_ph C ph farmer_public_key sk)
        end
    end;
  plot_id ←
    match Params.plotid args with
    | Some s =>
        log INFO ("Debug plot ID: " +:+ s);;
        b ← lift_opt ValueError (bytes_fromhex s);
        lift_opt ValueError (bytes32 b)
    | None => mret plot_id
    end;
  plot_memo ←
    match Params.memo args with
    | Some s =>
        log INFO ("Debug memo: " +:+ s);;
        lift_opt ValueError (bytes_fromhex s)
    | None => mret plot_memo
    end;
  log INFO ("Memo: " +:+ bytes_hex plot_memo);;
  mret (plot_id, plot_memo).

(** Lines 48-142: everything [create_plot] does before it looks for the
    output file. *)
Definition prepare (args : Params.t) (root_path : Path)
    (test_private_keys : option (list (PrivateKey C))) : M (Locals.t C) :=
  let config_filename := config_path_for_filename S root_path "config.yaml" in
  config ← (fun w => (load_config S root_path config_filename, w));
  let args := default_tmp2_dir args in
  farmer_public_key ← resolve_farmer_key args;
  '(pool_public_key, pool_contract_puzzle_hash) ← resolve_pool args;
  args ← enforce_size args config test_private_keys;
  log_plan args farmer_public_key pool_public_key pool_contract_puzzle_hash;;
  '(tmp_dir_created, tmp2_dir_created) ← make_temp_dirs args;
  let full_path := Params.filename args in
  let filename := path_name full_path in
  final_dir ← path_cwd;
  mkdir final_dir;;
  found ← path_exists full_path;
  print (path_str full_path +:+ " " +:+ str_bool found);;
  sk ← choose_sk test_private_keys;
  let plot_public_key :=
    generate_plot_public_key C (get_g1 C (master_sk_to_local_sk C sk))
                             farmer_public_key in
  '(plot_id, plot_memo) ←
    derive_identity args farmer_public_key pool_public_key
                    pool_contract_puzzle_hash sk plot_public_key;
  now ← datetime_now;
  let dt_string := strftime_minute now in
  mret (Locals.mk args farmer_public_key pool_public_key
                  pool_contract_puzzle_hash tmp_dir_created tmp2_dir_created
                  full_path filename final_dir sk plot_public_key plot_id
                  plot_memo dt_string).

(** A call of an engine entry point: it is recorded, the engine works on
    the disk, and what it raises propagates. *)
Definition invoke (c : EngineCall) : M unit := fun w =>
  let w := emit (EvEngine c) w in
  let '(fs', failure) := engine S c (w_cwd w) (w_fs w) in
  (match failure with Some e => inl e | None => inr tt end, with_fs fs' w).

(** Lines 144-194 *)
Definition dispatch (l : Locals.t C) : M unit :=
  let args := Locals.args l in
  found ← path_exists (Locals.full_path l);
  if negb found then
    log INFO "Starting plot";;
    if (Params.phase args =? 0)%Z then
      invoke (create_plot_disk
                (path_str (Params.tmp_dir args))
                (str_opt path_str (Params.tmp2_dir args))
                (path_str (Locals.final_dir l))
                (Locals.filename l)
                (Params.size args)
                (Locals.plot_memo l)
                (Locals.plot_id l)
                (Params.buffer args)
                (Params.buckets args)
                (Params.stripe_size args)
                (Params.num_threads args)
                (Params.nobitfield args))
    else if (Params.phase args =? 1)%Z then
      invoke (create_plot_disk_phase1
                (path_str (Params.tmp_dir args))
                (str_opt path_str (Params.tmp2_dir args))
                (path_str (Params.final_dir args))
                (Locals.filename l)
                (Params.size args)
                (Locals.plot_memo l)
                (Locals.plot_id l)
                (Params.buffer args)
                (Params.buckets args)
                (Params.stripe_size args)
                (Params.num_threads args)
                (Params.nobitfield args))
    else if (Params.phase args =? 2)%Z then
      invoke (create_plot_disk_phase234
                (path_str (Params.tmp_dir args))
                (str_opt path_str (Params.tmp2_dir args))
                (path_str (Locals.final_dir l))
                (Locals.filename l)
                (Params.size args)
                (Params.buffer args)
                (Params.buckets args)
                (Params.stripe_size args)
                (Params.nobitfield args))
    else mret tt
  else
    log INFO ("Plot " +:+ Locals.filename l +:+ " already exists").

(** Lines 198-208 *)
Definition cleanup (l : Locals.t C) : M unit :=
  let args := Locals.args l in
  (if Locals.tmp_dir_created l then
     try_except
       (rmdir (Params.tmp_dir args))
       (log INFO ("warning: did not remove primary temporary folder "
                  +:+ path_str (Params.tmp_dir args)
                  +:+ ", it may not be empty."))
   else mret tt);;
  (if Locals.tmp2_dir_created l then
     try_except
       (tmp2 ← attr_of "rmdir" (Params.tmp2_dir args); rmdir tmp2)
       (log INFO ("warning: did not remove secondary temporary folder "
                  +:+ str_opt path_str (Params.tmp2_dir args)
                  +:+ ", it may not be empty."))
   else mret tt).

(** Lines 144-211 *)
Definition finish (l : Locals.t C) : M unit :=
  dispatch l;;
  log INFO "Summary:";;
  cleanup l;;
  log INFO "Created a total of 1 new plots";;
  log INFO (Locals.filename l).

(** Lines 47-211 *)
Definition create_plot (args : Params.t) (root_path : Path)
    (test_private_keys : option (list (PrivateKey C))) : M unit :=
  l ← prepare args root_path test_private_keys;
  finish l.

End CreatePlot.

(** ** [chia/plotter/plotter.py]: the [create] command *)

Section Plotter.

Context {C : Crypto} (S : Services C).

(** [Path(s)] of [pathlib], for the strings the command line hands over. *)
Variable Path_of : string -> Path.

Definition DEFAULT_STRIPE_SIZE : Z := 65536.

(** Lines 48-102 of [create_plot]: what runs before [args.filename] is
    read.  The result is [args] after lines 52 and 80, the farmer key, the
    pair of pool values and the pair of ownership flags. *)
Definition prepare_head (args : Params.t) (root_path : Path)
    (test_private_keys : option (list (PrivateKey C)))
  : M (Params.t * G1Element C * (option (G1Element C) * option bytes)
       * (bool * bool)) :=
  let config_filename := config_path_for_filename S root_path "config.yaml" in
  config ← (fun w => (load_config S root_path config_filename, w));
  let args := default_tmp2_dir args in
  farmer_public_key ← resolve_farmer_key S args;
  pool ← resolve_pool S args;
  args ← enforce_size args config test_private_keys;
  log_plan args farmer_public_key (fst pool) (snd pool);;
  created ← make_temp_dirs args;
  mret (args, farmer_public_key, pool, created).

(** Lines 104-142 of [create_plot], given what lines 48-102 produced. *)
Definition prepare_tail
    (test_private_keys : option (list (PrivateKey C)))
    (h : Params.t * G1Element C * (option (G1Element C) * option bytes)
         * (bool * bool)) : M (Locals.t C) :=
  let '(args, farmer_public_key, (pool_public_key, pool_contract_puzzle_hash),
        (tmp_dir_created, tmp2_dir_created)) := h in
  let full_path := Params.filename args in
  let filename := path_name full_path in
  final_dir ← path_cwd;
  mkdir final_dir;;
  found ← path_exists full_path;
  print (path_str full_path +:+ " " +:+ str_bool found);;
  sk ← choose_sk S test_private_keys;
  let plot_public_key :=
    generate_plot_public_key C (get_g1 C (master_sk_to_local_sk C sk))
                             farmer_public_key in
  '(plot_id, plot_memo) ←
    derive_identity args farmer_public_key pool_public_key
                    pool_contract_puzzle_hash sk plot_public_key;
  now ← datetime_now;
  let dt_string := strftime_minute now in
  mret (Locals.mk args farmer_public_key pool_public_key
                  pool_contract_puzzle_hash tmp_dir_created tmp2_dir_created
                  full_path filename final_dir sk plot_public_key plot_id
                  plot_memo dt_string).

(** [create_plot] on an object that has no [filename] attribute, which is
    what [create_cmd] passes: lines 48-102 run, then line 104 raises.  The
    [filename] field of the argument stands for nothing here and is never
    read. *)
Definition create_plot_no_filename (args : Params.t) (root_path : Path)
    (test_private_keys : option (list (PrivateKey C))) : M unit :=
  prepare_head args root_path test_private_keys;;
  raise (AttributeError "filename").

(** The placeholder for the attribute class [Params] does not set. *)
Definition no_filename : Path := mkPath false [].

(** Lines 131-149: [Params()] *)
Definition cli_params (size buffer num_threads buckets : Z)
    (alt_fingerprint : option Z)
    (pool_contract_address farmer_public_key pool_public_key : option string)
    (tmp_dir : string) (tmp2_dir : option string) (final_dir : string)
    (plotid memo : option string) (nobitfield exclude_final_dir : bool)
    (phase : Z) : Params.t :=
  Params.mk size buffer num_threads buckets DEFAULT_STRIPE_SIZE
    alt_fingerprint pool_contract_address farmer_public_key pool_public_key
    (Path_of tmp_dir)
    (match tmp2_dir with
     | Some s => if decide (s = EmptyString) then None else Some (Path_of s)
     | None => None
     end)
    (Path_of final_dir) plotid memo nobitfield exclude_final_dir phase
    no_filename.

(** Lines 109-160.  The module never imports [sys], so each [sys.exit(1)]
    raises [NameError]. *)
Definition create_cmd (root_path : Path) (size : Z) (override_k : bool)
    (buffer num_threads buckets : Z) (alt_fingerprint : option Z)
    (pool_contract_address farmer_public_key pool_public_key : option string)
    (tmp_dir : string) (tmp2_dir : option string) (final_dir : string)
    (plotid memo : option string) (nobitfield exclude_final_dir : bool)
    (phase : Z) : M unit :=
  if (size <? 32)%Z && negb override_k then
    print "k=32 is the minimum size for farming.";;
    print "If you are testing and you want to use smaller size please add the --override-k flag.";;
    raise (NameError "sys")
  else if (size <? 25)%Z && override_k then
    print "Error: The minimum k size allowed from the cli is k=25.";;
    raise (NameError "sys")
  else
    print "create_plot";;
    create_plot_no_filename
      (cli_params size buffer num_threads buckets alt_fingerprint
                  pool_contract_address farmer_public_key pool_public_key
                  tmp_dir tmp2_dir final_dir plotid memo nobitfield
                  exclude_final_dir phase)
      root_path None.

End Plotter.

(** ** A small concrete instance, used to run the model on examples *)

Module Toy.

Definition be_value (b : bytes) : Z :=
  Z.of_N (foldl (fun acc x => acc * 256 + Byte.to_N x)%N 0%N b).

Definition crypto : Crypto := {|
  PrivateKey := Z;
  G1Element := Z;
  g1_from_bytes := fun b => match b with [] => None | _ => Some (be_value b) end;
  g1_bytes := fun g => default [] (fmap (fun x => [x]) (Byte.of_N (Z.to_N (g mod 256))));
  get_g1 := fun sk => (sk + 1000)%Z;
  key_gen := fun seed => Z.of_nat (length seed);
  master_sk_to_farmer_sk := fun sk => (10 * sk + 1)%Z;
  master_sk_to_pool_sk := fun sk => (10 * sk + 2)%Z;
  master_sk_to_local_sk := fun sk => (10 * sk + 3)%Z;
  generate_plot_public_key := fun a b => (a + b)%Z;
  calculate_plot_id_pk := fun _ _ => replicate 32 Byte.x01;
  calculate_plot_id_ph := fun _ _ => replicate 32 Byte.x02;
  stream_plot_info_pk := fun _ _ _ => [Byte.x01];
  stream_plot_info_ph := fun _ _ _ => [Byte.x02];
  decode_puzzle_hash := fun addr =>
    if String.prefix "xch" addr then Some (replicate 32 Byte.x00) else None
|}.

(** A key store holding [keys] (a key is its own fingerprint), a fixed
    configuration and the engine [eng]. *)
Definition services (keys : list Z)
    (eng : EngineCall -> list string -> FS -> FS * option Exn)
  : Services crypto := {|
  get_private_key_by_fingerprint := fun fp =>
    fmap (fun k => (k, [])) (list_find (fun k => k = fp) keys ≫= (fun x => Some (snd x)));
  get_first_private_key := fmap (fun k => (k, [])) (head keys);
  config_path_for_filename := fun root f =>
    mkPath (anchored root) (parts root ++ ["config"; f]);
  load_config := fun _ _ => inr {[ "min_mainnet_k_size" := 32%Z ]};
  token_bytes := fun n r => (replicate n Byte.x00, (r + 1)%N);
  engine := eng
|}.

(** An engine that returns at once and one that always fails. *)
Definition idle_engine (c : EngineCall) (cwd : list string) (fs : FS)
  : FS * option Exn := (fs, None).

Definition broken_engine (c : EngineCall) (cwd : list string) (fs : FS)
  : FS * option Exn := (fs, Some (RuntimeError "plotting failed")).

Definition root_path : Path := mkPath true ["home"; "chia"].

Definition clock : DateTime := mkDateTime 2021 6 1 9 5 30.

(** A disk with [/plots] and [/work], the job running in [/work]. *)
Definition disk : FS :=
  <[ ["plots"] := NDir false ]> (<[ ["work"] := NDir false ]> ∅).

Definition world : World := mkWorld disk ["work"] clock 0 [].

(** A job with the defaults of the command line, but for what is given. *)
Definition make_job (k phase : Z) (farmer pool address : option string)
    (tmp : Path) (tmp2 : option Path) (file : Path) : Params.t := {|
  Params.size := k;
  Params.buffer := 3389;
  Params.num_threads := 2;
  Params.buckets := 128;
  Params.stripe_size := 65536;
  Params.alt_fingerprint := None;
  Params.pool_contract_address := address;
  Params.farmer_public_key := farmer;
  Params.pool_public_key := pool;
  Params.tmp_dir := tmp;
  Params.tmp2_dir := tmp2;
  Params.final_dir := mkPath true ["plots"; "final"];
  Params.plotid := None;
  Params.memo := None;
  Params.nobitfield := false;
  Params.exclude_final_dir := false;
  Params.phase := phase;
  Params.filename := file
|}.

Definition tmp : Path := mkPath true ["plots"; "tmp"].
Definition a_plot : Path := mkPath true ["plots"; "final"; "a.plot"].
Definition b_plot : Path := mkPath true ["plots"; "final"; "b.plot"].

(** [k=32], phase 0, keys from the key store, temp directory [/plots/tmp],
    output [/plots/final/a.plot]. *)
Definition job : Params.t := make_job 32 0 None None None tmp None a_plot.

(** The same job under another output name. *)
Definition renamed_job : Params.t := make_job 32 0 None None None tmp None b_plot.

(** The same job with [k=10]. *)
Definition small_job : Params.t := make_job 10 0 None None None tmp None a_plot.

(** The same job with a phase the dispatch does not know. *)
Definition odd_phase_job : Params.t := make_job 32 7 None None None tmp None a_plot.

(** The same job for phase 1. *)
Definition phase1_job : Params.t := make_job 32 1 None None None tmp None a_plot.

(** A job that names both a pool public key and a pool contract address. *)
Definition both_pools_job : Params.t :=
  make_job 32 0 None (Some "0a") (Some "xch1pool") tmp None a_plot.

(** A job farming to a pool contract address. *)
Definition contract_job : Params.t :=
  make_job 32 0 None None (Some "xch1pool") tmp None a_plot.

(** Temp directory [/plots/a/b], secondary temp directory [/plots/a]. *)
Definition nested_job : Params.t :=
  make_job 32 0 None None None (mkPath true ["plots"; "a"; "b"])
           (Some (mkPath true ["plots"; "a"])) a_plot.

(** A world in which the output of [job] is already there. *)
Definition plotted_world : World :=
  mkWorld (<[ ["plots"; "final"; "a.plot"] := NFile ]>
             (<[ ["plots"; "final"] := NDir false ]> disk))
          ["work"] clock 0 [].

Definition config : gmap string Z := {[ "min_mainnet_k_size" := 32%Z ]}.

(** A job with both keys given in hex, and one with the farmer key only. *)
Definition explicit_job : Params.t :=
  make_job 32 0 (Some "2f") (Some "30") None tmp None a_plot.

Definition farmer_only_job : Params.t :=
  make_job 32 0 (Some "2f") None None tmp None a_plot.

(** [args.plotid = i] and [args.memo = m] *)
Definition with_overrides (i m : option string) (a : Params.t) : Params.t :=
  Params.mk (Params.size a) (Params.buffer a) (Params.num_threads a)
    (Params.buckets a) (Params.stripe_size a) (Params.alt_fingerprint a)
    (Params.pool_contract_address a) (Params.farmer_public_key a)
    (Params.pool_public_key a) (Params.tmp_dir a) (Params.tmp2_dir a)
    (Params.final_dir a) i m (Params.nobitfield a)
    (Params.exclude_final_dir a) (Params.phase a) (Params.filename a).

Definition plot_id_hex : string :=
  "abababababababababababababababababababababababababababababababab".

(** The job with a plot ID of 32 bytes and a memo of two, both in hex. *)
Definition override_job : Params.t :=
  with_overrides (Some plot_id_hex) (Some "0102") job.

(** A farmer key that is not hexadecimal, with both pool inputs given. *)
Definition bad_farmer_job : Params.t :=
  make_job 32 0 (Some "zz") (Some "0a") (Some "xch1pool") tmp None a_plot.

(** The services with a key, but a configuration that names no minimum. *)
Definition unconfigured : Services crypto := {|
  get_private_key_by_fingerprint :=
    get_private_key_by_fingerprint (services [7] idle_engine);
  get_first_private_key := get_first_private_key (services [7] idle_engine);
  config_path_for_filename :=
    config_path_for_filename (services [7] idle_engine);
  load_config := fun _ _ => inr ∅;
  token_bytes := token_bytes (services [7] idle_engine);
  engine := idle_engine
|}.

(** Splits a POSIX path at its slashes, dropping empty and [.] parts. *)
Fixpoint split_parts (cur : string) (s : string) : list string :=
  let close := if decide (cur = EmptyString) then []
               else if decide (cur = ".") then [] else [cur] in
  match s with
  | EmptyString => close
  | String c rest =>
      if Ascii.eqb c "/"%char then close ++ split_parts EmptyString rest
      else split_parts (cur +:+ String c EmptyString) rest
  end.

Definition path_of (s : string) : Path :=
  mkPath (String.prefix "/" s) (split_parts EmptyString s).

(** The [create] command with the defaults of its options, but for the
    size, the override flag and the temp directory. *)
Definition create (S : Services crypto) (k : Z) (override_k : bool)
    (tmp_dir : string) : M unit :=
  create_cmd S path_of root_path k override_k 3389 2 128 None None None None
             tmp_dir None "." None None false false 0.

(** The locals a job reaches line 144 with, if it gets there. *)
Definition locals_of (S : Services crypto) (a : Params.t) (w : World)
  : option (Locals.t crypto) :=
  match prepare S a root_path None w with
  | (inr l, _) => Some l
  | (inl _, _) => None
  end.

(** The outcome of a whole job and the world it leaves. *)
Definition run (S : Services crypto) (a : Params.t) (w : World)
  : (Exn + unit) * World :=
  create_plot S a root_path None w.

End Toy.

(** ** Vocabulary of the statements *)

(** Between two worlds, nothing on disk changed and neither the engine nor
    a directory removal was called. *)
Definition untouched (w w' : World) : Prop :=
  w_fs w' = w_fs w ∧ w_cwd w' = w_cwd w ∧ w_now w' = w_now w ∧
  engine_calls w' = engine_calls w ∧ rmdir_attempts w' = rmdir_attempts w.

(** The same, except that the disk may differ. *)
Definition calm (w w' : World) : Prop :=
  w_cwd w' = w_cwd w ∧ w_now w' = w_now w ∧
  engine_calls w' = engine_calls w ∧ rmdir_attempts w' = rmdir_attempts w.

(** Every run of [m] relates the world it starts in to the one it leaves. *)
Definition obeys {A} (R : World -> World -> Prop) (m : M A) : Prop :=
  ∀ w r w', m w = (r, w') -> R w w'.

(** The key-store lookup that both key helpers make. *)
Definition stored_key {C : Crypto} (S : Services C) (alt_fingerprint : option Z)
  : option (PrivateKey C * bytes) :=
  match alt_fingerprint with
  | Some fp => get_private_key_by_fingerprint S fp
  | None => get_first_private_key S
  end.

Definition lookup_event (alt_fingerprint : option Z) : Event :=
  match alt_fingerprint with
  | Some fp => EvKeychainByFingerprint fp
  | None => EvKeychainFirst
  end.

(** The directory [d] entered in the file system of [w]. *)
Definition dir_key (w : World) (d : Path) : list string := resolve (w_cwd w) d.

Definition on_disk (w : World) (d : Path) : bool :=
  fs_exists (w_fs w) (dir_key w d).

(** [d] is something [rmdir] can take away in [w]. *)
Definition removable (w : World) (d : Path) : bool :=
  bool_decide (fs_node (w_fs w) (dir_key w d) = Some (NDir false))
  && dir_empty (w_fs w) (dir_key w d).

Definition not_removed_primary (args : Params.t) : Event :=
  EvLog INFO ("warning: did not remove primary temporary folder "
              +:+ path_str (Params.tmp_dir args) +:+ ", it may not be empty.").

Definition not_removed_secondary (args : Params.t) : Event :=
  EvLog INFO ("warning: did not remove secondary temporary folder "
              +:+ str_opt path_str (Params.tmp2_dir args)
              +:+ ", it may not be empty.").

Definition k_under_22 : Event :=
  EvLog WARNING "k under 22 is not supported. Increasing k to 22".

Definition under_mainnet (k : Z) : Event :=
  EvLog WARNING ("Creating plots with size k=" +:+ str_int k
                 +:+ ", which is less than the minimum required for mainnet").

(** The entry point, with its arguments, that lines 148-192 select. *)
Definition selected_call {C : Crypto} (l : Locals.t C) : option EngineCall :=
  let args := Locals.args l in
  if (Params.phase args =? 0)%Z then
    Some (create_plot_disk
            (path_str (Params.tmp_dir args))
            (str_opt path_str (Params.tmp2_dir args))
            (path_str (Locals.final_dir l)) (Locals.filename l)
            (Params.size args) (Locals.plot_memo l) (Locals.plot_id l)
            (Params.buffer args) (Params.buckets args)
            (Params.stripe_size args) (Params.num_threads args)
            (Params.nobitfield args))
  else if (Params.phase args =? 1)%Z then
    Some (create_plot_disk_phase1
            (path_str (Params.tmp_dir args))
            (str_opt path_str (Params.tmp2_dir args))
            (path_str (Params.final_dir args)) (Locals.filename l)
            (Params.size args) (Locals.plot_memo l) (Locals.plot_id l)
            (Params.buffer args) (Params.buckets args)
            (Params.stripe_size args) (Params.num_threads args)
            (Params.nobitfield args))
  else if (Params.phase args =? 2)%Z then
    Some (create_plot_disk_phase234
            (path_str (Params.tmp_dir args))
            (str_opt path_str (Params.tmp2_dir args))
            (path_str (Locals.final_dir l)) (Locals.filename l)
            (Params.size args) (Params.buffer args) (Params.buckets args)
            (Params.stripe_size args) (Params.nobitfield args))
  else None.

(** Between two worlds, the engine was not called and the process stayed in
    its working directory. *)
Definition engine_idle (w w' : World) : Prop :=
  w_cwd w' = w_cwd w ∧ engine_calls w' = engine_calls w.

Definition starting_plot : Event := EvLog INFO "Starting plot".

Definition already_exists (name : string) : Event :=
  EvLog INFO ("Plot " +:+ name +:+ " already exists").

Definition summary : Event := EvLog INFO "Summary:".

(** The two closing log lines, 210-211. *)
Definition closing (name : string) (w : World) : World :=
  emit (EvLog INFO name) (emit (EvLog INFO "Created a total of 1 new plots") w).

(** The "warning: did not remove ..." lines of the cleanup. *)
Definition is_removal_warning (e : Event) : bool :=
  match e with
  | EvLog INFO msg => String.prefix "warning: did not remove" msg
  | _ => false
  end.

(** One guarded removal of lines 198-208: [rmdir] is tried on [d]; if it
    raises, [warning] is logged instead. *)
Definition attempt_removal (d : Path) (warning : Event) (w : World) : World :=
  let w1 := emit (EvRmdir (dir_key w d)) w in
  match fs_rmdir (w_fs w) (dir_key w d) with
  | Some fs' => with_fs fs' w1
  | None => emit warning w1
  end.

(** The removals cleanup tries, given the two ownership flags. *)
Definition owned_removals (created created2 : bool) (k k2 : list string)
  : list Event :=
  (if created then [EvRmdir k] else []) ++ (if created2 then [EvRmdir k2] else []).

(** Between two worlds, the job stayed in its working directory and logged
    only events that satisfy [P]. *)
Definition emits_only (P : Event -> bool) (w w' : World) : Prop :=
  w_cwd w' = w_cwd w ∧
  ∃ d, w_trace w' = w_trace w ++ d ∧ forallb P d = true.

(** Between two worlds, whatever was on disk is still there, unchanged, and
    whatever is new is an unlocked directory. *)
Definition disk_kept (w w' : World) : Prop :=
  w_cwd w' = w_cwd w ∧
  ∀ k, match fs_node (w_fs w) k with
       | Some n => fs_node (w_fs w') k = Some n
       | None => fs_node (w_fs w') k = None
                 ∨ fs_node (w_fs w') k = Some (NDir false)
       end.

Definition not_keychain (e : Event) : bool := negb (is_keychain e).

Definition not_k_under_22 (e : Event) : bool :=
  match e with
  | EvLog WARNING msg => negb (String.eqb msg "k under 22 is not supported. Increasing k to 22")
  | _ => true
  end.

(** The plot ID and memo of lines 122-128 for the given keys. *)
Definition derived_identity {C : Crypto} (farmer_public_key : G1Element C)
    (pool_public_key : option (G1Element C))
    (pool_contract_puzzle_hash : option bytes)
    (sk : PrivateKey C) : option (bytes * bytes) :=
  let plot_public_key :=
    generate_plot_public_key C (get_g1 C (master_sk_to_local_sk C sk))
                             farmer_public_key in
  match pool_public_key, pool_contract_puzzle_hash with
  | Some pk, _ => Some (calculate_plot_id_pk C pk plot_public_key,
                        stream_plot_info_pk C pk farmer_public_key sk)
  | None, Some ph => Some (calculate_plot_id_ph C ph plot_public_key,
                           stream_plot_info_ph C ph farmer_public_key sk)
  | None, None => None
  end.

(** A computation that leaves the world as it is. *)
Definition silent {A} (m : M A) : Prop :=
  ∀ w r w', m w = (r, w') -> w' = w.

(** A computation whose only effect is to record the event [e]. *)
Definition emits {A} (e : Event) (m : M A) : Prop :=
  ∀ w r w', m w = (r, w') -> w' = emit e w.


(** ** The monad *)

Lemma bind_inr {A B} (m : M A) (k : A -> M B) w a w' :
  m w = (inr a, w') -> (m ≫= k) w = k a w'.
Proof. intros H. unfold mbind, M_bind. now rewrite H. Qed.

Lemma bind_inl {A B} (m : M A) (k : A -> M B) w e w' :
  m w = (inl e, w') -> (m ≫= k) w = (inl e, w').
Proof. intros H. unfold mbind, M_bind. now rewrite H. Qed.

Lemma bind_inr_inv {A B} (m : M A) (k : A -> M B) w b w2 :
  (m ≫= k) w = (inr b, w2) ->
  ∃ a w1, m w = (inr a, w1) ∧ k a w1 = (inr b, w2).
Proof.
  unfold mbind, M_bind. destruct (m w) as [[e|a] w1]; intros H.
  - discriminate.
  - now exists a, w1.
Qed.

Lemma lift_opt_inr_inv {A} e (o : option A) w a w' :
  lift_opt e o w = (inr a, w') -> o = Some a ∧ w' = w.
Proof. destruct o; cbv; intros H; inversion H; auto. Qed.

#[global] Instance untouched_preorder : PreOrder untouched.
Proof.
  split.
  - intros w. now repeat split.
  - intros a b c (H1 & H2 & H3 & H4 & H5) (K1 & K2 & K3 & K4 & K5).
    repeat split; congruence.
Qed.

#[global] Instance calm_preorder : PreOrder calm.
Proof.
  split.
  - intros w. now repeat split.
  - intros a b c (H2 & H3 & H4 & H5) (K2 & K3 & K4 & K5).
    repeat split; congruence.
Qed.

Lemma untouched_calm w w' : untouched w w' -> calm w w'.
Proof. intros (_ & H). exact H. Qed.

Lemma obeys_weaken {A} (m : M A) : obeys untouched m -> obeys calm m.
Proof. intros H w r w' E. apply untouched_calm. eauto. Qed.

Lemma obeys_ret {A} R `{!Reflexive R} (a : A) : obeys R (mret a).
Proof. intros w r w' E. inversion E. reflexivity. Qed.

Lemma obeys_raise {A} R `{!Reflexive R} e : obeys R (@raise A e).
Proof. intros w r w' E. inversion E. reflexivity. Qed.

Lemma obeys_bind {A B} R `{!PreOrder R} (m : M A) (k : A -> M B) :
  obeys R m -> (∀ a, obeys R (k a)) -> obeys R (m ≫= k).
Proof.
  intros Hm Hk w r w' E. unfold mbind, M_bind in E.
  destruct (m w) as [[e|a] w1] eqn:Em.
  - inversion E; subst. eauto.
  - transitivity w1; [eauto | eapply Hk; eauto].
Qed.

Lemma obeys_try_except {A} R `{!PreOrder R} (m h : M A) :
  obeys R m -> obeys R h -> obeys R (try_except m h).
Proof.
  intros Hm Hh w r w' E. unfold try_except in E.
  destruct (m w) as [[e|a] w1] eqn:Em.
  - transitivity w1; eauto.
  - inversion E; subst. eauto.
Qed.

Lemma emit_untouched e w :
  is_engine e = false -> is_rmdir e = false -> untouched w (emit e w).
Proof.
  intros He Hr. unfold untouched, engine_calls, rmdir_attempts. simpl.
  rewrite !filter_app.
  rewrite (filter_singleton_False is_engine e []) by (rewrite He; exact id).
  rewrite (filter_singleton_False is_rmdir e []) by (rewrite Hr; exact id).
  now rewrite !app_nil_r.
Qed.

Lemma obeys_log lvl msg : obeys untouched (log lvl msg).
Proof. intros w r w' E. inversion E. now apply emit_untouched. Qed.

Lemma obeys_print msg : obeys untouched (print msg).
Proof. intros w r w' E. inversion E. now apply emit_untouched. Qed.

Lemma obeys_lift_opt {A} e (o : option A) : obeys untouched (lift_opt e o).
Proof. destruct o; intros w r w' E; inversion E; reflexivity. Qed.

Lemma obeys_py_assert b : obeys untouched (py_assert b).
Proof. destruct b; intros w r w' E; inversion E; reflexivity. Qed.

Lemma obeys_path_exists p : obeys untouched (path_exists p).
Proof. intros w r w' E. inversion E. reflexivity. Qed.

Lemma obeys_path_cwd : obeys untouched path_cwd.
Proof. intros w r w' E. inversion E. reflexivity. Qed.

Lemma obeys_datetime_now : obeys untouched datetime_now.
Proof. intros w r w' E. inversion E. reflexivity. Qed.

Lemma with_fs_calm fs w w' : calm w w' -> calm w (with_fs fs w').
Proof. intros H. exact H. Qed.

Lemma obeys_mkdir p : obeys calm (mkdir p).
Proof.
  intros w r w' E. unfold mkdir in E.
  destruct (fs_mkdir _ _); inversion E; subst; try apply with_fs_calm;
    apply untouched_calm, (emit_untouched (EvMkdir _)); reflexivity.
Qed.

Create HintDb frame.

#[local] Hint Resolve obeys_log obeys_print obeys_lift_opt obeys_py_assert
  obeys_path_exists obeys_path_cwd obeys_datetime_now obeys_mkdir : frame.

(** Walks through a computation, one bind or branch at a time. *)
Ltac frame_step :=
  match goal with
  | |- obeys _ (mbind _ _) => apply obeys_bind; [apply _ | | intros ?]
  | |- obeys _ (mret _) => apply obeys_ret; apply _
  | |- obeys _ (raise _) => apply obeys_raise; apply _
  | |- obeys _ (try_except _ _) => apply obeys_try_except; [apply _ | | ]
  | |- obeys _ (match ?x with _ => _ end) => destruct x
  | |- obeys _ _ => solve [auto with frame]
  | |- obeys calm _ => apply obeys_weaken
  end.

Ltac frame := repeat frame_step.

(** ** Key resolution *)

Section Facts.

Context {C : Crypto} (S : Services C).

Lemma obeys_keychain_by_fingerprint fp :
  obeys untouched (keychain_by_fingerprint S fp).
Proof. intros w r w' E. inversion E. now apply emit_untouched. Qed.

Lemma obeys_keychain_first : obeys untouched (keychain_first S).
Proof. intros w r w' E. inversion E. now apply emit_untouched. Qed.

Hint Resolve obeys_keychain_by_fingerprint obeys_keychain_first : frame.

(** What [get_farmer_public_key] does, in one equation. *)
Lemma get_farmer_public_key_run fp w :
  get_farmer_public_key S fp w =
  (match stored_key S fp with
   | None => inl (RuntimeError no_keys_f)
   | Some (sk, _) => inr (get_g1 C (master_sk_to_farmer_sk C sk))
   end, emit (lookup_event fp) w).
Proof.
  unfold get_farmer_public_key, stored_key, lookup_event, mbind, M_bind,
    keychain_by_fingerprint, keychain_first.
  destruct fp as [fp|];
    [destruct (get_private_key_by_fingerprint S fp) as [[sk m]|]
    |destruct (get_first_private_key S) as [[sk m]|]]; reflexivity.
Qed.

Lemma get_pool_public_key_run fp w :
  get_pool_public_key S fp w =
  (match stored_key S fp with
   | None => inl (RuntimeError no_keys_p)
   | Some (sk, _) => inr (get_g1 C (master_sk_to_pool_sk C sk))
   end, emit (lookup_event fp) w).
Proof.
  unfold get_pool_public_key, stored_key, lookup_event, mbind, M_bind,
    keychain_by_fingerprint, keychain_first.
  destruct fp as [fp|];
    [destruct (get_private_key_by_fingerprint S fp) as [[sk m]|]
    |destruct (get_first_private_key S) as [[sk m]|]]; reflexivity.
Qed.

Lemma obeys_get_farmer_public_key fp :
  obeys untouched (get_farmer_public_key S fp).
Proof. unfold get_farmer_public_key. frame. Qed.

Lemma obeys_get_pool_public_key fp :
  obeys untouched (get_pool_public_key S fp).
Proof. unfold get_pool_public_key. frame. Qed.

Lemma obeys_g1_from_hex s : obeys untouched (@g1_from_hex C s).
Proof. unfold g1_from_hex. frame. Qed.

Hint Resolve obeys_get_farmer_public_key obeys_get_pool_public_key
  obeys_g1_from_hex : frame.

Lemma obeys_resolve_farmer_key args :
  obeys untouched (resolve_farmer_key S args).
Proof. unfold resolve_farmer_key. frame. Qed.

Lemma obeys_resolve_pool args : obeys untouched (resolve_pool S args).
Proof. unfold resolve_pool. frame. Qed.

Lemma obeys_enforce_size args cfg tpk :
  obeys untouched (@enforce_size C args cfg tpk).
Proof. unfold enforce_size. frame. Qed.

Lemma obeys_log_plan args fpk pk ph :
  obeys untouched (@log_plan C args fpk pk ph).
Proof. unfold log_plan. frame. Qed.

Lemma obeys_make_temp_dirs args : obeys calm (make_temp_dirs args).
Proof. unfold make_temp_dirs, attr_of. frame. Qed.

Lemma obeys_os_token_bytes n : obeys untouched (os_token_bytes S n).
Proof.
  intros w r w' E. unfold os_token_bytes in E.
  destruct (token_bytes S n (w_rng w)). inversion E. now repeat split.
Qed.

Hint Resolve obeys_os_token_bytes : frame.

Lemma obeys_choose_sk tpk : obeys untouched (choose_sk S tpk).
Proof. unfold choose_sk. frame. Qed.

Lemma obeys_derive_identity args fpk pk ph sk ppk :
  obeys untouched (@derive_identity C args fpk pk ph sk ppk).
Proof. unfold derive_identity. frame. Qed.

Hint Resolve obeys_resolve_farmer_key obeys_resolve_pool obeys_enforce_size
  obeys_log_plan obeys_make_temp_dirs obeys_choose_sk obeys_derive_identity
  : frame.

Lemma obeys_load_config root f :
  obeys untouched (fun w => (load_config S root f, w)).
Proof. intros w r w' E. inversion E. reflexivity. Qed.

Hint Resolve obeys_load_config : frame.

(** Before it looks for the output file, the job calls neither the engine
    nor [rmdir], and stays in its working directory. *)
Lemma obeys_prepare args root tpk : obeys calm (prepare S args root tpk).
Proof. unfold prepare. frame. Qed.

End Facts.

Section KeyClaims.

Context {C : Crypto} (S : Services C).

Lemma default_tmp2_dir_keys args :
  Params.farmer_public_key (default_tmp2_dir args) = Params.farmer_public_key args ∧
  Params.alt_fingerprint (default_tmp2_dir args) = Params.alt_fingerprint args ∧
  Params.pool_public_key (default_tmp2_dir args) = Params.pool_public_key args ∧
  Params.pool_contract_address (default_tmp2_dir args)
    = Params.pool_contract_address args.
Proof. unfold default_tmp2_dir. now destruct (Params.tmp2_dir args). Qed.

(** The head of [create_plot]: once the configuration is loaded, the job
    is whatever follows the resolution of the farmer key. *)
Lemma create_plot_farmer_failure args root tpk w cfg e w1 :
  load_config S root (config_path_for_filename S root "config.yaml") = inr cfg ->
  resolve_farmer_key S (default_tmp2_dir args) w = (inl e, w1) ->
  create_plot S args root tpk w = (inl e, w1).
Proof.
  intros Hcfg Hf. unfold create_plot, prepare.
  apply bind_inl. rewrite (bind_inr _ _ w cfg w) by now rewrite Hcfg.
  now apply bind_inl.
Qed.

Lemma create_plot_pool_failure args root tpk w cfg fpk w1 e w2 :
  load_config S root (config_path_for_filename S root "config.yaml") = inr cfg ->
  resolve_farmer_key S (default_tmp2_dir args) w = (inr fpk, w1) ->
  resolve_pool S (default_tmp2_dir args) w1 = (inl e, w2) ->
  create_plot S args root tpk w = (inl e, w2).
Proof.
  intros Hcfg Hf Hp. unfold create_plot, prepare.
  apply bind_inl. rewrite (bind_inr _ _ w cfg w) by now rewrite Hcfg.
  rewrite (bind_inr _ _ _ _ _ Hf). now apply bind_inl.
Qed.

(** C8. With no explicit farmer public key and no key in the key store (by
    fingerprint if one is given, else the first key), [get_farmer_public_key]
    raises the "No keys, please run 'chia keys add', 'chia keys generate' or
    provide a public key with -f" error, key resolution fails with it, and so
    does the whole job once its configuration is loaded. *)
Theorem no_key_available args root tpk w :
  Params.farmer_public_key args = None ->
  stored_key S (Params.alt_fingerprint args) = None ->
  let w' := emit (lookup_event (Params.alt_fingerprint args)) w in
  get_farmer_public_key S (Params.alt_fingerprint args) w
    = (inl (RuntimeError no_keys_f), w') ∧
  resolve_farmer_key S args w = (inl (RuntimeError no_keys_f), w') ∧
  (∀ cfg,
     load_config S root (config_path_for_filename S root "config.yaml") = inr cfg ->
     create_plot S args root tpk w = (inl (RuntimeError no_keys_f), w')).
Proof.
  intros Hnone Hstore w'.
  assert (Hget : get_farmer_public_key S (Params.alt_fingerprint args) w
                 = (inl (RuntimeError no_keys_f), w')).
  { rewrite get_farmer_public_key_run, Hstore. reflexivity. }
  split; [exact Hget|]. split.
  - unfold resolve_farmer_key. rewrite Hnone. exact Hget.
  - intros cfg Hcfg. eapply create_plot_farmer_failure; [exact Hcfg|].
    destruct (default_tmp2_dir_keys args) as (Hf & Ha & _).
    unfold resolve_farmer_key. rewrite Hf, Hnone, Ha. exact Hget.
Qed.

(** C4, as the code has it.  With both an explicit pool public key and a
    pool contract address, the pool step raises "Choose one of
    pool_contract_address and pool_public_key" at once, leaving the world as
    it found it: no pool key is decoded or derived, no address is decoded.
    In the job this step comes after the configuration is loaded and the
    farmer key is resolved; when those two succeed, the job fails with that
    error in the world farmer-key resolution left. *)
Theorem conflicting_pool_selection args s addr :
  Params.pool_public_key args = Some s ->
  Params.pool_contract_address args = Some addr ->
  (∀ w, resolve_pool S args w = (inl (RuntimeError choose_one), w)) ∧
  (∀ root tpk w cfg fpk w1,
     load_config S root (config_path_for_filename S root "config.yaml") = inr cfg ->
     resolve_farmer_key S (default_tmp2_dir args) w = (inr fpk, w1) ->
     create_plot S args root tpk w = (inl (RuntimeError choose_one), w1)).
Proof.
  intros Hpk Haddr.
  assert (Hpool : ∀ a w, Params.pool_public_key a = Some s ->
            Params.pool_contract_address a = Some addr ->
            resolve_pool S a w = (inl (RuntimeError choose_one), w)).
  { intros a w H1 H2. unfold resolve_pool. rewrite H1, H2. reflexivity. }
  split.
  - intros w. now apply Hpool.
  - intros root tpk w cfg fpk w1 Hcfg Hf.
    eapply create_plot_pool_failure; eauto.
    destruct (default_tmp2_dir_keys args) as (_ & _ & H1 & H2).
    apply Hpool; congruence.
Qed.


End KeyClaims.

(** ** The size floor and the locals of the job *)

Section JobFacts.

Context {C : Crypto} (S : Services C).

(** Lines 76-80 in one equation. *)
Lemma enforce_size_run args cfg (tpk : option (list (PrivateKey C))) min_k w :
  cfg !! "min_mainnet_k_size" = Some min_k ->
  enforce_size args cfg tpk w =
  let w1 := if (Params.size args <? min_k)%Z && bool_decide (tpk = None)
            then emit (under_mainnet (Params.size args)) w else w in
  if (Params.size args <? 22)%Z
  then (inr (Params.set_size 22 args), emit k_under_22 w1)
  else (inr args, w1).
Proof.
  intros Hcfg. unfold enforce_size. rewrite Hcfg.
  unfold lift_opt, log, k_under_22, under_mainnet, mbind, M_bind, mret, M_ret.
  destruct ((Params.size args <? min_k)%Z && bool_decide (tpk = None));
    destruct (Params.size args <? 22)%Z; reflexivity.
Qed.

Lemma enforce_size_inv args cfg (tpk : option (list (PrivateKey C))) w args' w' :
  enforce_size args cfg tpk w = (inr args', w') ->
  args' = if (Params.size args <? 22)%Z then Params.set_size 22 args else args.
Proof.
  intros H. destruct (cfg !! "min_mainnet_k_size") as [min_k|] eqn:Hk.
  - rewrite (enforce_size_run _ _ _ _ _ Hk) in H. cbn zeta in H.
    destruct (Params.size args <? 22)%Z; now inversion H.
  - unfold enforce_size in H. rewrite Hk in H. discriminate.
Qed.

(** What [prepare] went through when it returns the locals [l]. *)
Lemma prepare_inv args root tpk w l w1 :
  prepare S args root tpk w = (inr l, w1) ->
  ∃ cfg wa wb wc wd we wf,
    load_config S root (config_path_for_filename S root "config.yaml") = inr cfg ∧
    resolve_farmer_key S (default_tmp2_dir args) w
      = (inr (Locals.farmer_public_key l), wa) ∧
    resolve_pool S (default_tmp2_dir args) wa
      = (inr (Locals.pool_public_key l, Locals.pool_contract_puzzle_hash l), wb) ∧
    enforce_size (default_tmp2_dir args) cfg tpk wb = (inr (Locals.args l), wc) ∧
    log_plan (Locals.args l) (Locals.farmer_public_key l)
             (Locals.pool_public_key l) (Locals.pool_contract_puzzle_hash l) wc
      = (inr tt, wd) ∧
    make_temp_dirs (Locals.args l) wd
      = (inr (Locals.tmp_dir_created l, Locals.tmp2_dir_created l), we) ∧
    mkdir (mkPath true (w_cwd we)) we = (inr tt, wf) ∧
    untouched wf w1 ∧
    Locals.full_path l = Params.filename (Locals.args l) ∧
    Locals.filename l = path_name (Params.filename (Locals.args l)) ∧
    Locals.final_dir l = mkPath true (w_cwd we) ∧
    Locals.dt_string l = strftime_minute (w_now w1).
Proof.
  unfold prepare. intros H.
  apply bind_inr_inv in H as (cfg & w0 & Hcfg & H).
  injection Hcfg as Hcfg <-.
  apply bind_inr_inv in H as (fpk & wa & Hf & H).
  apply bind_inr_inv in H as ([pk ph] & wb & Hp & H).
  apply bind_inr_inv in H as (args' & wc & Hs & H).
  apply bind_inr_inv in H as ([] & wd & Hl & H).
  apply bind_inr_inv in H as ([c1 c2] & we & Hd & H).
  apply bind_inr_inv in H as (fd & we' & Hcwd & H).
  injection Hcwd as <- <-.
  apply bind_inr_inv in H as ([] & wf & Hmk & H).
  apply bind_inr_inv in H as (found & w2 & Hex & H).
  apply bind_inr_inv in H as ([] & w3 & Hpr & H).
  apply bind_inr_inv in H as (sk & w4 & Hsk & H).
  apply bind_inr_inv in H as ([pid pm] & w5 & Hid & H).
  apply bind_inr_inv in H as (now & w6 & Hnow & H).
  injection Hnow as <- <-. injection H as <- <-. cbn.
  assert (Hu : untouched wf w5).
  { transitivity w2; [eapply obeys_path_exists; eauto|].
    transitivity w3; [eapply obeys_print; eauto|].
    transitivity w4; [eapply obeys_choose_sk; eauto|].
    eapply obeys_derive_identity; eauto. }
  exists cfg, wa, wb, wc, wd, we, wf.
  repeat (split; [first [assumption | reflexivity]|]). reflexivity.
Qed.

End JobFacts.

(** ** Dispatch and the end of the job *)

#[global] Instance engine_idle_preorder : PreOrder engine_idle.
Proof.
  split.
  - intros w. now split.
  - intros a b c [H1 H2] [K1 K2]. split; congruence.
Qed.

Lemma calm_engine_idle w w' : calm w w' -> engine_idle w w'.
Proof. intros (H1 & _ & H2 & _). now split. Qed.

Lemma obeys_calm_engine_idle {A} (m : M A) :
  obeys calm m -> obeys engine_idle m.
Proof. intros H w r w' E. apply calm_engine_idle. eauto. Qed.

Lemma obeys_rmdir p : obeys engine_idle (rmdir p).
Proof.
  intros w r w' E. unfold rmdir in E.
  assert (engine_idle w (emit (EvRmdir (resolve (w_cwd w) p)) w)) as Hi.
  { split; [reflexivity|]. unfold engine_calls. simpl. rewrite filter_app.
    rewrite (filter_singleton_False is_engine _ []) by exact id.
    apply app_nil_r. }
  destruct (fs_rmdir _ _); inversion E; subst; exact Hi.
Qed.

Section EndFacts.

Context {C : Crypto} (S : Services C).

Lemma invoke_run c w :
  invoke S c w =
  let r := engine S c (w_cwd w) (w_fs w) in
  (match snd r with Some e => inl e | None => inr tt end,
   with_fs (fst r) (emit (EvEngine c) w)).
Proof.
  unfold invoke. cbn. destruct (engine S c (w_cwd w) (w_fs w)). reflexivity.
Qed.

(** Lines 144-194 in one equation. *)
Lemma dispatch_run (l : Locals.t C) w :
  dispatch S l w =
  if on_disk w (Locals.full_path l)
  then (inr tt, emit (already_exists (Locals.filename l)) w)
  else match selected_call l with
       | Some c => invoke S c (emit starting_plot w)
       | None => (inr tt, emit starting_plot w)
       end.
Proof.
  unfold dispatch, selected_call, on_disk, dir_key, path_exists, log,
    mbind, M_bind, mret, M_ret.
  destruct (fs_exists _ _); cbn; [reflexivity|].
  destruct (Params.phase (Locals.args l) =? 0)%Z; [reflexivity|].
  destruct (Params.phase (Locals.args l) =? 1)%Z; [reflexivity|].
  destruct (Params.phase (Locals.args l) =? 2)%Z; reflexivity.
Qed.

(** Cleanup never raises, and it does not call the engine. *)
Lemma cleanup_returns (l : Locals.t C) w : fst (cleanup l w) = inr tt.
Proof.
  unfold cleanup, try_except, mbind, M_bind, mret, M_ret, log.
  destruct (Locals.tmp_dir_created l), (Locals.tmp2_dir_created l);
    repeat match goal with
           | |- context [rmdir ?p ?w] => destruct (rmdir p w) as [[?|[]] ?]
           | |- context [attr_of ?n ?o ?w] => destruct (attr_of n o w) as [[?|?] ?]
           end; reflexivity.
Qed.

Lemma cleanup_run (l : Locals.t C) w : cleanup l w = (inr tt, snd (cleanup l w)).
Proof.
  pose proof (cleanup_returns l w) as H.
  destruct (cleanup l w) as [r w']. simpl in *. now subst.
Qed.

Lemma obeys_cleanup (l : Locals.t C) : obeys engine_idle (cleanup l).
Proof.
  unfold cleanup, attr_of.
  assert (∀ lvl msg, obeys engine_idle (log lvl msg)) as Hlog.
  { intros. apply obeys_calm_engine_idle, obeys_weaken, obeys_log. }
  assert (∀ A e (o : option A), obeys engine_idle (lift_opt e o)) as Hopt.
  { intros. apply obeys_calm_engine_idle, obeys_weaken, obeys_lift_opt. }
  pose proof obeys_rmdir.
  repeat first [frame_step | solve [auto]].
Qed.

(** Lines 144-211 when dispatch returns: cleanup runs in the world dispatch
    left, then the two closing lines are logged. *)
Lemma finish_after_return (l : Locals.t C) w wd :
  dispatch S l w = (inr tt, wd) ->
  finish S l w
  = (inr tt, closing (Locals.filename l) (snd (cleanup l (emit summary wd)))).
Proof.
  intros Hd. unfold finish. rewrite (bind_inr _ _ _ _ _ Hd).
  rewrite (bind_inr _ _ wd tt (emit summary wd)) by reflexivity.
  rewrite (bind_inr _ _ _ tt _ (cleanup_run l (emit summary wd))).
  reflexivity.
Qed.

(** Lines 144-211 when dispatch raises: the exception leaves the function
    from line 150, 166 or 182. *)
Lemma finish_after_raise (l : Locals.t C) w e wd :
  dispatch S l w = (inl e, wd) -> finish S l w = (inl e, wd).
Proof. intros Hd. unfold finish. now apply bind_inl. Qed.

End EndFacts.

Section JobClaims.

Context {C : Crypto} (S : Services C).

Lemma engine_calls_emit e w :
  is_engine e = false -> engine_calls (emit e w) = engine_calls w.
Proof.
  intros He. unfold engine_calls. simpl. rewrite filter_app.
  rewrite (filter_singleton_False is_engine e []) by (rewrite He; exact id).
  apply app_nil_r.
Qed.

Lemma rmdir_attempts_emit e w :
  is_rmdir e = false -> rmdir_attempts (emit e w) = rmdir_attempts w.
Proof.
  intros He. unfold rmdir_attempts. simpl. rewrite filter_app.
  rewrite (filter_singleton_False is_rmdir e []) by (rewrite He; exact id).
  apply app_nil_r.
Qed.

(** The caller's object after lines 52 and 80. *)
Lemma prepare_args args root tpk w l w1 :
  prepare S args root tpk w = (inr l, w1) ->
  Locals.args l =
  let a := default_tmp2_dir args in
  if (Params.size a <? 22)%Z then Params.set_size 22 a else a.
Proof.
  intros H. apply prepare_inv in H as (cfg & wa & wb & wc & ? & ? & ? & _ & _ & _ & Hs & _).
  now apply enforce_size_inv in Hs.
Qed.

Lemma prepare_fields args root tpk w l w1 :
  prepare S args root tpk w = (inr l, w1) ->
  let a := Locals.args l in
  Params.size a = Z.max 22 (Params.size args) ∧
  Params.phase a = Params.phase args ∧
  Params.filename a = Params.filename args ∧
  Params.final_dir a = Params.final_dir args ∧
  Params.tmp_dir a = Params.tmp_dir args ∧
  Params.tmp2_dir a
    = Some (default (Params.tmp_dir args) (Params.tmp2_dir args)).
Proof.
  intros H a. subst a. rewrite (prepare_args _ _ _ _ _ _ H). cbn zeta.
  unfold default_tmp2_dir.
  destruct (Params.tmp2_dir args) eqn:E2; cbn;
    destruct (Params.size args <? 22)%Z eqn:Ek; cbn; rewrite ?E2;
    repeat split; try reflexivity;
    try (apply Z.ltb_lt in Ek); try (apply Z.ltb_ge in Ek); lia.
Qed.

(** C6. The size check of lines 76-80 never raises on account of [k]: with
    the mainnet minimum present in the configuration it returns; for [k]
    below 22 the size becomes exactly 22 and the last thing logged is the
    warning "k under 22 is not supported. Increasing k to 22"; for [k] of 22
    or more the parameters come back unchanged and that warning is not
    logged.  The size the job goes on with is max(22, k). *)
Theorem k_size_floor args cfg tpk min_k w :
  cfg !! "min_mainnet_k_size" = Some min_k ->
  ∃ args' w',
    @enforce_size C args cfg tpk w = (inr args', w') ∧
    Params.size args' = Z.max 22 (Params.size args) ∧
    (Params.size args < 22 ->
       args' = Params.set_size 22 args ∧ Params.size args' = 22 ∧
       last (w_trace w') = Some k_under_22) ∧
    (22 <= Params.size args ->
       args' = args ∧
       (w' = w ∨ w' = emit (under_mainnet (Params.size args)) w)) ∧
    (∀ root wj l w1,
       prepare S args root tpk wj = (inr l, w1) ->
       Params.size (Locals.args l) = Z.max 22 (Params.size args)).
Proof.
  intros Hcfg. rewrite (enforce_size_run _ _ _ _ _ Hcfg). cbn zeta.
  destruct (Params.size args <? 22)%Z eqn:Ek.
  - apply Z.ltb_lt in Ek. eexists _, _. split; [reflexivity|].
    split; [cbn; lia|]. split; [|split].
    + intros _. split; [reflexivity|]. split; [reflexivity|].
      cbn. apply last_snoc.
    + lia.
    + intros root wj l w1 H. now apply prepare_fields in H as (H & _).
  - apply Z.ltb_ge in Ek. eexists _, _. split; [reflexivity|].
    split; [lia|]. split; [lia|]. split.
    + intros _. split; [reflexivity|].
      destruct (_ && _); [right|left]; reflexivity.
    + intros root wj l w1 H. now apply prepare_fields in H as (H & _).
Qed.

(** C3, as the code has it.  The output file name is the last component of
    the path the caller supplies in [args.filename], and the path that is
    tested for existence is that path itself; neither depends on the size,
    the plot ID or the clock.  So two runs given the same [args.filename]
    resolve to the same name, whatever their other parameters and whenever
    they run. *)
Theorem output_file_name args root tpk w l w1 :
  prepare S args root tpk w = (inr l, w1) ->
  Locals.full_path l = Params.filename args ∧
  Locals.filename l = path_name (Params.filename args) ∧
  (∀ c, selected_call l = Some c -> call_filename c = path_name (Params.filename args)) ∧
  (∀ args' root' tpk' w' l' w1',
     prepare S args' root' tpk' w' = (inr l', w1') ->
     Params.filename args' = Params.filename args ->
     Locals.full_path l' = Locals.full_path l ∧
     Locals.filename l' = Locals.filename l).
Proof.
  assert (Hname : ∀ a r t v m v1, prepare S a r t v = (inr m, v1) ->
            Locals.full_path m = Params.filename a ∧
            Locals.filename m = path_name (Params.filename a)).
  { intros a r t v m v1 H.
    pose proof (prepare_fields _ _ _ _ _ _ H) as (_ & _ & Hf & _).
    apply prepare_inv in H
      as (? & ? & ? & ? & ? & ? & ? & _ & _ & _ & _ & _ & _ & _ & _ & H1 & H2 & _).
    cbn zeta in Hf. rewrite H1, H2, Hf. now split. }
  intros H. destruct (Hname _ _ _ _ _ _ H) as [H1 H2].
  split; [exact H1|]. split; [exact H2|]. split.
  - intros c Hc. rewrite <- H2. unfold selected_call in Hc.
    repeat match type of Hc with
           | (if ?b then _ else _) = _ => destruct b
           end; inversion Hc; reflexivity.
  - intros args' root' tpk' w' l' w1' H' Heq.
    destruct (Hname _ _ _ _ _ _ H') as [H1' H2']. split; congruence.
Qed.

(** When dispatch returns without having called the engine, the job ends
    normally, with cleanup run, and with no engine call on record. *)
Lemma create_plot_without_engine args root tpk w l w1 wd :
  prepare S args root tpk w = (inr l, w1) ->
  dispatch S l w1 = (inr tt, wd) ->
  engine_calls wd = engine_calls w1 ->
  let wc := snd (cleanup l (emit summary wd)) in
  let w2 := closing (Locals.filename l) wc in
  cleanup l (emit summary wd) = (inr tt, wc) ∧
  create_plot S args root tpk w = (inr tt, w2) ∧
  engine_calls w2 = engine_calls w.
Proof.
  intros Hp Hd He wc w2. split; [apply cleanup_run|]. split.
  - unfold create_plot. rewrite (bind_inr _ _ _ _ _ Hp).
    now apply finish_after_return.
  - subst w2 wc. unfold closing. rewrite !engine_calls_emit by reflexivity.
    destruct (obeys_cleanup l _ _ _ (cleanup_run l (emit summary wd))) as [_ ->].
    rewrite engine_calls_emit by reflexivity. rewrite He.
    now destruct (obeys_prepare S _ _ _ _ _ _ Hp) as (_ & _ & -> & _).
Qed.

End JobClaims.

(** ** Cleanup *)

Section CleanupFacts.

Context {C : Crypto} (S : Services C).

Lemma try_rmdir_run d msg w :
  try_except (rmdir d) (log INFO msg) w
  = (inr tt, attempt_removal d (EvLog INFO msg) w).
Proof.
  unfold try_except, rmdir, attempt_removal, dir_key, log.
  cbn. destruct (fs_rmdir _ _); reflexivity.
Qed.

(** Lines 198-208 as two guarded removals. *)
Lemma cleanup_eq (l : Locals.t C) w t2 :
  Params.tmp2_dir (Locals.args l) = Some t2 ->
  snd (cleanup l w) =
  let a := Locals.args l in
  let w1 := if Locals.tmp_dir_created l
            then attempt_removal (Params.tmp_dir a) (not_removed_primary a) w
            else w in
  if Locals.tmp2_dir_created l
  then attempt_removal t2 (not_removed_secondary a) w1
  else w1.
Proof.
  intros H2. unfold cleanup. rewrite H2. cbn zeta.
  unfold not_removed_primary, not_removed_secondary. rewrite H2.
  assert (∀ msg v, try_except (tmp2 ← attr_of "rmdir" (Some t2); rmdir tmp2)
                              (log INFO msg) v
                   = (inr tt, attempt_removal t2 (EvLog INFO msg) v)) as Hsec.
  { intros. apply try_rmdir_run. }
  destruct (Locals.tmp_dir_created l), (Locals.tmp2_dir_created l).
  - rewrite (bind_inr _ _ _ _ _ (try_rmdir_run _ _ _)). now rewrite Hsec.
  - now rewrite (bind_inr _ _ _ _ _ (try_rmdir_run _ _ _)).
  - unfold mbind, M_bind, mret, M_ret. now rewrite Hsec.
  - reflexivity.
Qed.

Lemma attempt_removal_cwd d ev w : w_cwd (attempt_removal d ev w) = w_cwd w.
Proof. unfold attempt_removal. now destruct (fs_rmdir _ _). Qed.

Lemma attempt_removal_attempts d ev w :
  is_rmdir ev = false ->
  rmdir_attempts (attempt_removal d ev w)
  = rmdir_attempts w ++ [EvRmdir (dir_key w d)].
Proof.
  intros Hev. unfold attempt_removal.
  assert (rmdir_attempts (emit (EvRmdir (dir_key w d)) w)
          = rmdir_attempts w ++ [EvRmdir (dir_key w d)]) as H.
  { unfold rmdir_attempts. simpl. rewrite filter_app.
    now rewrite (filter_singleton_True is_rmdir _ []). }
  destruct (fs_rmdir _ _).
  - exact H.
  - now rewrite rmdir_attempts_emit.
Qed.

(** Cleanup tries to remove exactly the directories flagged as created. *)
Lemma cleanup_attempts (l : Locals.t C) w t2 :
  Params.tmp2_dir (Locals.args l) = Some t2 ->
  rmdir_attempts (snd (cleanup l w))
  = rmdir_attempts w
    ++ owned_removals (Locals.tmp_dir_created l) (Locals.tmp2_dir_created l)
         (dir_key w (Params.tmp_dir (Locals.args l))) (dir_key w t2).
Proof.
  intros H2. rewrite (cleanup_eq _ _ _ H2). cbn zeta. unfold owned_removals.
  destruct (Locals.tmp_dir_created l), (Locals.tmp2_dir_created l);
    rewrite ?attempt_removal_attempts by reflexivity;
    unfold dir_key; rewrite ?attempt_removal_cwd;
    rewrite <- ?app_assoc, ?app_nil_r; reflexivity.
Qed.

End CleanupFacts.

Section DispatchClaims.

Context {C : Crypto} (S : Services C).

(** The part of [prepare] that touches the disk: lines 94-102, then the
    [mkdir] of line 107 on the working directory. *)
Lemma prepare_dirs args root tpk w l w1 :
  prepare S args root tpk w = (inr l, w1) ->
  ∃ wd we wf,
    untouched w wd ∧
    make_temp_dirs (Locals.args l) wd
      = (inr (Locals.tmp_dir_created l, Locals.tmp2_dir_created l), we) ∧
    w_cwd we = w_cwd w ∧
    mkdir (mkPath true (w_cwd w)) we = (inr tt, wf) ∧
    untouched wf w1 ∧
    Locals.final_dir l = mkPath true (w_cwd w).
Proof.
  intros H. apply prepare_inv in H
    as (cfg & wa & wb & wc & wd & we & wf
        & _ & Hf & Hp & Hs & Hl & Hd & Hmk & Hu & _ & _ & Hfd & _).
  assert (Hwd : untouched w wd).
  { transitivity wa; [eapply obeys_resolve_farmer_key; eauto|].
    transitivity wb; [eapply obeys_resolve_pool; eauto|].
    transitivity wc; [eapply obeys_enforce_size; eauto|].
    eapply obeys_log_plan; eauto. }
  assert (Hcwd : w_cwd we = w_cwd w).
  { destruct (obeys_make_temp_dirs _ _ _ _ Hd) as (-> & _).
    now destruct Hwd as (_ & -> & _). }
  rewrite Hcwd in Hmk, Hfd. exists wd, we, wf. auto 10.
Qed.

Lemma dispatch_frame (l : Locals.t C) w r wd :
  dispatch S l w = (r, wd) ->
  w_cwd wd = w_cwd w ∧ rmdir_attempts wd = rmdir_attempts w.
Proof.
  rewrite dispatch_run. destruct (on_disk _ _).
  - intros [= <- <-]. split; [reflexivity|]. now apply rmdir_attempts_emit.
  - destruct (selected_call l) as [c|].
    + rewrite invoke_run. cbn zeta. intros [= <- <-]. split; [reflexivity|].
      change (rmdir_attempts (emit (EvEngine c) (emit starting_plot w))
              = rmdir_attempts w).
      now rewrite !rmdir_attempts_emit by reflexivity.
    + intros [= <- <-]. split; [reflexivity|]. now apply rmdir_attempts_emit.
Qed.

(** Dispatch raises only what an engine entry point raised. *)
Lemma dispatch_raise_inv (l : Locals.t C) w e wd :
  dispatch S l w = (inl e, wd) ->
  ∃ c, on_disk w (Locals.full_path l) = false ∧
       selected_call l = Some c ∧
       snd (engine S c (w_cwd w) (w_fs w)) = Some e ∧
       wd = with_fs (fst (engine S c (w_cwd w) (w_fs w)))
                    (emit (EvEngine c) (emit starting_plot w)).
Proof.
  rewrite dispatch_run. destruct (on_disk _ _); [discriminate|].
  destruct (selected_call l) as [c|]; [|discriminate].
  rewrite invoke_run. cbn zeta. cbn [w_cwd w_fs emit].
  destruct (snd (engine S c (w_cwd w) (w_fs w))) as [e'|] eqn:E; [|discriminate].
  intros [= -> <-]. exists c. auto.
Qed.

(** C2, as the code has it.  For a job that has reached line 144: when
    dispatch returns (the engine call returned, or no call was made),
    cleanup runs, tries to remove exactly the temp directories flagged as
    created by this job, and the job returns normally; when the engine call
    raises, the exception leaves [create_plot] at once, in the world the
    engine left, and no removal is tried. *)
Theorem cleanup_after_dispatch args root tpk w l w1 :
  prepare S args root tpk w = (inr l, w1) ->
  let tmp := Params.tmp_dir args in
  let tmp2 := default tmp (Params.tmp2_dir args) in
  (∀ wd, dispatch S l w1 = (inr tt, wd) ->
     let wc := snd (cleanup l (emit summary wd)) in
     cleanup l (emit summary wd) = (inr tt, wc) ∧
     create_plot S args root tpk w = (inr tt, closing (Locals.filename l) wc) ∧
     rmdir_attempts wc
     = rmdir_attempts w
       ++ owned_removals (Locals.tmp_dir_created l) (Locals.tmp2_dir_created l)
            (dir_key w tmp) (dir_key w tmp2)) ∧
  (∀ e wd, dispatch S l w1 = (inl e, wd) ->
     (∃ c, selected_call l = Some c ∧
           snd (engine S c (w_cwd w1) (w_fs w1)) = Some e ∧
           wd = with_fs (fst (engine S c (w_cwd w1) (w_fs w1)))
                        (emit (EvEngine c) (emit starting_plot w1))) ∧
     create_plot S args root tpk w = (inl e, wd) ∧
     rmdir_attempts wd = rmdir_attempts w).
Proof.
  intros Hp tmp tmp2.
  pose proof (obeys_prepare S _ _ _ _ _ _ Hp) as (Hcwd & _ & _ & Hrm).
  pose proof (prepare_fields S _ _ _ _ _ _ Hp) as (_ & _ & _ & _ & Ht & Ht2).
  cbn zeta in Ht, Ht2. split.
  - intros wd Hd wc. split; [apply cleanup_run|]. split.
    + unfold create_plot. rewrite (bind_inr _ _ _ _ _ Hp).
      now apply finish_after_return.
    + destruct (dispatch_frame _ _ _ _ Hd) as [Hc Hr].
      subst wc. rewrite (cleanup_attempts _ _ _ Ht2).
      rewrite rmdir_attempts_emit by reflexivity.
      unfold dir_key. cbn [w_cwd emit]. now rewrite Hr, Hrm, Hc, Hcwd, Ht.
  - intros e wd Hd. split; [|split].
    + apply dispatch_raise_inv in Hd as (c & _ & H). eauto.
    + unfold create_plot. rewrite (bind_inr _ _ _ _ _ Hp).
      now apply finish_after_raise.
    + destruct (dispatch_frame _ _ _ _ Hd) as [_ ->]. exact Hrm.
Qed.

(** C10. The job's [final_dir] is the working directory of the process, and
    the [mkdir] of line 107 is applied to it; it is the only change to the
    disk between the temp directories and the existence check.  The call for
    phase 0 and for phase 2 passes that working directory as its final
    directory, whatever [args.filename] and [args.final_dir] are; the call
    for phase 1 passes [args.final_dir].  With no output file yet, that call
    is the one dispatch makes. *)
Theorem final_dir_argument args root tpk w l w1 :
  prepare S args root tpk w = (inr l, w1) ->
  let cwd := mkPath true (w_cwd w) in
  Locals.final_dir l = cwd ∧
  (∃ we wf, w_cwd we = w_cwd w ∧ mkdir cwd we = (inr tt, wf) ∧ untouched wf w1) ∧
  (∀ c, selected_call l = Some c ->
     (Params.phase args = 0 ∨ Params.phase args = 2 ->
        call_final_dirname c = path_str cwd) ∧
     (Params.phase args = 1 ->
        call_final_dirname c = path_str (Params.final_dir args))) ∧
  (on_disk w1 (Locals.full_path l) = false ->
   Params.phase args = 0 ∨ Params.phase args = 1 ∨ Params.phase args = 2 ->
   ∃ c, selected_call l = Some c ∧
        dispatch S l w1 = invoke S c (emit starting_plot w1) ∧
        w_trace (snd (dispatch S l w1))
        = w_trace w1 ++ [starting_plot; EvEngine c]).
Proof.
  intros Hp cwd.
  pose proof (prepare_fields S _ _ _ _ _ _ Hp) as (_ & Hph & _ & Hfd & _).
  cbn zeta in Hph, Hfd.
  destruct (prepare_dirs _ _ _ _ _ _ Hp)
    as (wd & we & wf & _ & _ & Hcwd & Hmk & Hu & Hfinal).
  split; [exact Hfinal|]. split; [eauto|]. split.
  - intros c Hc. unfold selected_call in Hc. rewrite Hph, Hfd, Hfinal in Hc.
    destruct (Z.eqb_spec (Params.phase args) 0) as [E0|E0];
      [|destruct (Z.eqb_spec (Params.phase args) 1) as [E1|E1];
        [|destruct (Z.eqb_spec (Params.phase args) 2) as [E2|E2]]];
      inversion Hc; subst c; cbn; split; intros; try reflexivity; lia.
  - intros Hex Hphase.
    assert (∃ c, selected_call l = Some c) as [c Hc].
    { unfold selected_call. rewrite Hph.
      destruct Hphase as [ -> | [ -> | -> ] ]; cbn; eauto. }
    exists c. split; [exact Hc|].
    rewrite dispatch_run, Hex, Hc. split; [reflexivity|].
    rewrite invoke_run. cbn. now rewrite <- app_assoc.
Qed.

End DispatchClaims.

(** ** Jobs that end without an engine call *)

Section SkipClaims.

Context {C : Crypto} (S : Services C).

(** What the cleanup of lines 198-208 does once dispatch has returned: it
    is the two guarded removals, each tried only for a directory flagged as
    created, and nothing after it tries another removal. *)
Lemma cleanup_after_return args root tpk w l w1 wd :
  prepare S args root tpk w = (inr l, w1) ->
  dispatch S l w1 = (inr tt, wd) ->
  let tmp := Params.tmp_dir args in
  let tmp2 := default tmp (Params.tmp2_dir args) in
  let a := Locals.args l in
  let v := emit summary wd in
  let wc := snd (cleanup l v) in
  rmdir_attempts (closing (Locals.filename l) wc)
  = rmdir_attempts w
    ++ owned_removals (Locals.tmp_dir_created l) (Locals.tmp2_dir_created l)
         (dir_key w tmp) (dir_key w tmp2) ∧
  wc = (let v1 := if Locals.tmp_dir_created l
                  then attempt_removal tmp (not_removed_primary a) v
                  else v in
        if Locals.tmp2_dir_created l
        then attempt_removal tmp2 (not_removed_secondary a) v1
        else v1).
Proof.
  intros Hp Hd tmp tmp2 a v wc.
  pose proof (obeys_prepare S _ _ _ _ _ _ Hp) as (Hcwd & _ & _ & Hrm).
  pose proof (prepare_fields S _ _ _ _ _ _ Hp) as (_ & _ & _ & _ & Ht & Ht2).
  cbn zeta in Ht, Ht2.
  destruct (dispatch_frame _ _ _ _ _ Hd) as [Hc Hr]. split.
  - unfold closing. rewrite !rmdir_attempts_emit by reflexivity.
    subst wc v. rewrite (cleanup_attempts _ _ _ Ht2).
    rewrite rmdir_attempts_emit by reflexivity.
    unfold dir_key. cbn [w_cwd emit]. now rewrite Hr, Hrm, Hc, Hcwd, Ht.
  - subst wc. rewrite (cleanup_eq _ _ _ Ht2). cbn zeta. subst a.
    now rewrite Ht.
Qed.

(** C1. When the output path already exists as the job reaches line 144,
    dispatch only logs "Plot ... already exists", the cleanup of lines
    198-208 runs, the job returns normally, and none of the three engine
    entry points has been called.  The cleanup is the real one: it tries
    [rmdir] on exactly the temp directories this job flagged as created, in
    the order primary, secondary, and the world it leaves is the one the two
    guarded removals produce (a directory removed, or a warning logged). *)
Theorem idempotent_skip args root tpk w l w1 :
  prepare S args root tpk w = (inr l, w1) ->
  on_disk w1 (Locals.full_path l) = true ->
  let tmp := Params.tmp_dir args in
  let tmp2 := default tmp (Params.tmp2_dir args) in
  let wd := emit (already_exists (Locals.filename l)) w1 in
  let wc := snd (cleanup l (emit summary wd)) in
  let w2 := closing (Locals.filename l) wc in
  dispatch S l w1 = (inr tt, wd) ∧
  cleanup l (emit summary wd) = (inr tt, wc) ∧
  create_plot S args root tpk w = (inr tt, w2) ∧
  engine_calls w2 = engine_calls w ∧
  rmdir_attempts w2
  = rmdir_attempts w
    ++ owned_removals (Locals.tmp_dir_created l) (Locals.tmp2_dir_created l)
         (dir_key w tmp) (dir_key w tmp2) ∧
  wc = (let a := Locals.args l in
        let v := emit summary wd in
        let v1 := if Locals.tmp_dir_created l
                  then attempt_removal tmp (not_removed_primary a) v
                  else v in
        if Locals.tmp2_dir_created l
        then attempt_removal tmp2 (not_removed_secondary a) v1
        else v1).
Proof.
  intros Hp Hex tmp tmp2 wd wc w2.
  assert (Hd : dispatch S l w1 = (inr tt, wd)).
  { rewrite dispatch_run, Hex. reflexivity. }
  split; [exact Hd|].
  destruct (create_plot_without_engine S _ _ _ _ _ _ _ Hp Hd) as (Hc & Hrun & He).
  { now apply engine_calls_emit. }
  split; [exact Hc|]. split; [exact Hrun|]. split; [exact He|].
  exact (cleanup_after_return _ _ _ _ _ _ _ Hp Hd).
Qed.

(** C9. With a phase other than 0, 1 and 2 and no output file yet, dispatch
    logs "Starting plot" and calls no engine entry point; nothing is raised
    for the unknown phase, cleanup runs and the job returns normally.  The
    cleanup is the real one: it tries [rmdir] on exactly the temp
    directories this job flagged as created, in the order primary,
    secondary, and the world it leaves is the one the two guarded removals
    produce. *)
Theorem unknown_phase args root tpk w l w1 :
  prepare S args root tpk w = (inr l, w1) ->
  on_disk w1 (Locals.full_path l) = false ->
  Params.phase args ≠ 0 -> Params.phase args ≠ 1 -> Params.phase args ≠ 2 ->
  let tmp := Params.tmp_dir args in
  let tmp2 := default tmp (Params.tmp2_dir args) in
  let wd := emit starting_plot w1 in
  let wc := snd (cleanup l (emit summary wd)) in
  let w2 := closing (Locals.filename l) wc in
  dispatch S l w1 = (inr tt, wd) ∧
  cleanup l (emit summary wd) = (inr tt, wc) ∧
  create_plot S args root tpk w = (inr tt, w2) ∧
  engine_calls w2 = engine_calls w ∧
  rmdir_attempts w2
  = rmdir_attempts w
    ++ owned_removals (Locals.tmp_dir_created l) (Locals.tmp2_dir_created l)
         (dir_key w tmp) (dir_key w tmp2) ∧
  wc = (let a := Locals.args l in
        let v := emit summary wd in
        let v1 := if Locals.tmp_dir_created l
                  then attempt_removal tmp (not_removed_primary a) v
                  else v in
        if Locals.tmp2_dir_created l
        then attempt_removal tmp2 (not_removed_secondary a) v1
        else v1).
Proof.
  intros Hp Hex H0 H1 H2 tmp tmp2 wd wc w2.
  assert (Hd : dispatch S l w1 = (inr tt, wd)).
  { rewrite dispatch_run, Hex. unfold selected_call.
    destruct (prepare_fields S _ _ _ _ _ _ Hp) as (_ & -> & _).
    destruct (Z.eqb_spec (Params.phase args) 0); [contradiction|].
    destruct (Z.eqb_spec (Params.phase args) 1); [contradiction|].
    destruct (Z.eqb_spec (Params.phase args) 2); [contradiction|].
    reflexivity. }
  split; [exact Hd|].
  destruct (create_plot_without_engine S _ _ _ _ _ _ _ Hp Hd) as (Hc & Hrun & He).
  { now apply engine_calls_emit. }
  split; [exact Hc|]. split; [exact Hrun|]. split; [exact He|].
  exact (cleanup_after_return _ _ _ _ _ _ _ Hp Hd).
Qed.

End SkipClaims.

(** ** The file system operations *)

Lemma nonempty_prefix_cons (c : string) todo r :
  r ≠ [] -> r `prefix_of` c :: todo ->
  r = [c] ∨ ∃ r', r = c :: r' ∧ r' ≠ [] ∧ r' `prefix_of` todo.
Proof.
  intros Hr Hp. destruct r as [|x r']; [contradiction|].
  pose proof (prefix_cons_inv_1 _ _ _ _ Hp) as ->.
  apply prefix_cons_inv_2 in Hp.
  destruct r' as [|y r'']; [now left|]. right. eexists. eauto.
Qed.

Lemma fs_mkdirs_lookup todo : ∀ above (fs fs' : FS),
  fs_mkdirs above todo fs = Some fs' ->
  ∀ q, is_Some (fs' !! q) ↔
       is_Some (fs !! q) ∨ ∃ r, r ≠ [] ∧ r `prefix_of` todo ∧ q = above ++ r.
Proof.
  induction todo as [|c todo IH]; intros above fs fs' H q; cbn in H.
  - injection H as <-. split; [auto|].
    intros [Hq|(r & Hr & Hp & _)]; [exact Hq|].
    apply prefix_nil_inv in Hp. contradiction.
  - assert (Hone : [c] ≠ [] ∧ [c] `prefix_of` c :: todo).
    { split; [discriminate|]. apply prefix_cons, prefix_nil. }
    assert (Hmore : ∀ r, r ≠ [] -> r `prefix_of` todo ->
              c :: r ≠ [] ∧ c :: r `prefix_of` c :: todo ∧
              (above ++ [c]) ++ r = above ++ c :: r).
    { intros r Hr Hp. split; [discriminate|].
      split; [now apply prefix_cons|]. now rewrite <- app_assoc. }
    destruct (fs !! (above ++ [c])) as [[|b]|] eqn:Ed; [discriminate| |].
    + rewrite (IH _ _ _ H q). split.
      * intros [Hq|(r & Hr & Hp & ->)]; [now left|]. right.
        exists (c :: r). destruct (Hmore r Hr Hp) as (? & ? & ->). auto.
      * intros [Hq|(r & Hr & Hp & ->)]; [now left|].
        destruct (nonempty_prefix_cons _ _ _ Hr Hp) as [->|(r' & -> & Hr' & Hp')].
        -- left. rewrite Ed. eauto.
        -- right. exists r'. destruct (Hmore r' Hr' Hp') as (_ & _ & ->). auto.
    + rewrite (IH _ _ _ H q). rewrite lookup_insert_is_Some. split.
      * intros [[<-|[_ Hq]]|(r & Hr & Hp & ->)].
        -- right. exists [c]. destruct Hone. auto.
        -- now left.
        -- right. exists (c :: r).
           destruct (Hmore r Hr Hp) as (? & ? & ->). auto.
      * intros [Hq|(r & Hr & Hp & ->)].
        -- left. destruct (decide (above ++ [c] = q)); eauto.
        -- destruct (nonempty_prefix_cons _ _ _ Hr Hp)
             as [->|(r' & -> & Hr' & Hp')].
           ++ left. now left.
           ++ right. exists r'.
              destruct (Hmore r' Hr' Hp') as (_ & _ & ->). auto.
Qed.

(** After [mkdir k], what exists is what existed plus [k] and its
    ancestors. *)
Lemma fs_mkdir_exists (fs fs' : FS) k :
  fs_mkdir fs k = Some fs' ->
  ∀ q, fs_exists fs' q = fs_exists fs q || bool_decide (q `prefix_of` k).
Proof.
  intros H q. unfold fs_exists. destruct q as [|x q].
  - reflexivity.
  - cbn [fs_node]. pose proof (fs_mkdirs_lookup _ _ _ _ H (x :: q)) as Hq.
    cbn [app] in Hq.
    destruct (decide (is_Some (fs !! (x :: q)))) as [Hs|Hs].
    + rewrite (bool_decide_eq_true_2 _ Hs). cbn.
      apply bool_decide_eq_true_2, Hq. now left.
    + rewrite (bool_decide_eq_false_2 _ Hs). cbn.
      apply bool_decide_ext. rewrite Hq. split.
      * intros [?|(r & _ & Hp & ->)]; [contradiction|exact Hp].
      * intros Hp. right. exists (x :: q). split; [discriminate|]. eauto.
Qed.

Lemma fs_node_delete (fs : FS) k q :
  q ≠ k -> fs_node (delete k fs) q = fs_node fs q.
Proof.
  intros Hne. destruct q; [reflexivity|]. cbn. now apply lookup_delete_ne.
Qed.

Lemma fs_exists_delete (fs : FS) k : k ≠ [] -> fs_exists (delete k fs) k = false.
Proof.
  intros Hk. unfold fs_exists. destruct k; [contradiction|]. cbn.
  rewrite lookup_delete_eq. apply bool_decide_eq_false_2. now intros [? ?].
Qed.

Lemma dir_empty_delete (fs : FS) k q :
  ¬ strictly_below q k -> dir_empty (delete k fs) q = dir_empty fs q.
Proof.
  intros Hk. unfold dir_empty. apply bool_decide_ext. split.
  - intros H j x Hj. destruct (decide (j = k)) as [->|Hne]; [exact Hk|].
    apply (H j x). now rewrite lookup_delete_ne.
  - apply map_Forall_delete.
Qed.

Lemma fs_rmdir_removable w d :
  fs_rmdir (w_fs w) (dir_key w d)
  = if removable w d then Some (delete (dir_key w d) (w_fs w)) else None.
Proof.
  unfold fs_rmdir, removable.
  destruct (fs_node (w_fs w) (dir_key w d)) as [[|[]]|]; reflexivity.
Qed.

Lemma removable_key w d : removable w d = true -> dir_key w d ≠ [].
Proof.
  unfold removable. intros H Hk. rewrite Hk in H. cbn in H. discriminate.
Qed.

Lemma attempt_removal_fs d ev w :
  w_fs (attempt_removal d ev w)
  = if removable w d then delete (dir_key w d) (w_fs w) else w_fs w.
Proof.
  unfold attempt_removal. rewrite fs_rmdir_removable.
  now destruct (removable w d).
Qed.

Lemma attempt_removal_trace d ev w :
  w_trace (attempt_removal d ev w)
  = w_trace w ++ EvRmdir (dir_key w d) :: (if removable w d then [] else [ev]).
Proof.
  unfold attempt_removal. rewrite fs_rmdir_removable.
  destruct (removable w d); cbn; [reflexivity|]. now rewrite <- app_assoc.
Qed.

(** A removal leaves every other entry as it was. *)
Lemma attempt_removal_node d ev w q :
  q ≠ dir_key w d ->
  fs_node (w_fs (attempt_removal d ev w)) q = fs_node (w_fs w) q.
Proof.
  intros Hq. rewrite attempt_removal_fs.
  destruct (removable w d); [now apply fs_node_delete|reflexivity].
Qed.

(** Removing [d] does not change whether [d'] can be removed, unless [d']
    is [d] itself or lies above it. *)
Lemma removable_after_removal d ev w d' :
  ¬ dir_key w d' `prefix_of` dir_key w d ->
  removable (attempt_removal d ev w) d' = removable w d'.
Proof.
  intros Hp. unfold removable.
  replace (dir_key (attempt_removal d ev w) d') with (dir_key w d')
    by (unfold dir_key; now rewrite attempt_removal_cwd).
  rewrite attempt_removal_fs.
  destruct (removable w d); [|reflexivity].
  rewrite fs_node_delete, dir_empty_delete; [reflexivity| |].
  - intros [H _]. contradiction.
  - intros E. apply Hp. now rewrite E.
Qed.

Lemma on_disk_node w d :
  on_disk w d = bool_decide (is_Some (fs_node (w_fs w) (dir_key w d))).
Proof. reflexivity. Qed.

Lemma untouched_on_disk w w' d : untouched w w' -> on_disk w' d = on_disk w d.
Proof. intros (Hfs & Hcwd & _). unfold on_disk, dir_key. now rewrite Hfs, Hcwd. Qed.

(** Lines 94-102: which of the two directories the job records as its own.
    The second test is made after the first directory has been created. *)
Lemma make_temp_dirs_flags a wd c1 c2 we t2 :
  Params.tmp2_dir a = Some t2 ->
  make_temp_dirs a wd = (inr (c1, c2), we) ->
  c1 = negb (on_disk wd (Params.tmp_dir a)) ∧
  c2 = negb (on_disk wd t2)
       && negb (c1 && bool_decide (dir_key wd t2
                                   `prefix_of` dir_key wd (Params.tmp_dir a))).
Proof.
  intros H2 H. unfold make_temp_dirs in H. rewrite H2 in H.
  apply bind_inr_inv in H as (ex & w0 & Hex & H). injection Hex as <- <-.
  apply bind_inr_inv in H as (f1 & wm & H1 & H).
  apply bind_inr_inv in H as (t & w3 & Ht & H). injection Ht as <- <-.
  apply bind_inr_inv in H as (ex2 & w4 & Hex2 & H). injection Hex2 as <- <-.
  apply bind_inr_inv in H as (f2 & w5 & Hf2 & H). injection H as <- <- <-.
  assert (Hsecond : f2 = negb (fs_exists (w_fs wm) (resolve (w_cwd wm) t2))).
  { destruct (fs_exists (w_fs wm) (resolve (w_cwd wm) t2)); cbn in Hf2.
    - now injection Hf2 as <- _.
    - apply bind_inr_inv in Hf2 as ([] & w6 & _ & Hf2). now injection Hf2 as <- _. }
  clear Hf2. unfold on_disk, dir_key.
  destruct (fs_exists (w_fs wd) (resolve (w_cwd wd) (Params.tmp_dir a))) eqn:E1;
    cbn in H1.
  - injection H1 as <- <-. split; [reflexivity|]. cbn.
    now rewrite andb_true_r.
  - apply bind_inr_inv in H1 as ([] & w6 & Hmk & H1). injection H1 as <- <-.
    split; [reflexivity|]. cbn. unfold mkdir in Hmk. cbn in Hmk.
    destruct (fs_mkdir (w_fs wd) (resolve (w_cwd wd) (Params.tmp_dir a)))
      as [fs'|] eqn:Emk; [|discriminate].
    injection Hmk as <-. cbn in Hsecond.
    rewrite (fs_mkdir_exists _ _ _ Emk) in Hsecond.
    now rewrite negb_orb in Hsecond.
Qed.

Section OwnershipClaim.

Context {C : Crypto} (S : Services C).

(** C7, as the code has it.  The temp directory is recorded as created by
    the job exactly when it did not exist at job start.  The secondary temp
    directory is recorded as created exactly when it did not exist at job
    start and did not come into being with the temp directory, that is, when
    it is neither the temp directory nor one of its ancestors.  Whenever
    cleanup runs, it returns without raising; it leaves alone everything
    that existed at job start; and for each directory recorded as created,
    it removes the directory if that is an empty, removable directory, and
    otherwise leaves it in place and logs the "did not remove ... temporary
    folder" line. *)
Theorem directory_ownership args root tpk w l w1 :
  prepare S args root tpk w = (inr l, w1) ->
  let tmp := Params.tmp_dir args in
  let tmp2 := default tmp (Params.tmp2_dir args) in
  let a := Locals.args l in
  Locals.tmp_dir_created l = negb (on_disk w tmp) ∧
  Locals.tmp2_dir_created l
  = negb (on_disk w tmp2)
    && negb (negb (on_disk w tmp)
             && bool_decide (dir_key w tmp2 `prefix_of` dir_key w tmp)) ∧
  ∀ wc, w_cwd wc = w_cwd w ->
    let wc' := snd (cleanup l wc) in
    cleanup l wc = (inr tt, wc') ∧
    (∀ k, fs_exists (w_fs w) k = true ->
          fs_node (w_fs wc') k = fs_node (w_fs wc) k) ∧
    (Locals.tmp_dir_created l = true ->
       if removable wc tmp then on_disk wc' tmp = false
       else fs_node (w_fs wc') (dir_key w tmp) = fs_node (w_fs wc) (dir_key w tmp)
            ∧ not_removed_primary a ∈ w_trace wc') ∧
    (Locals.tmp2_dir_created l = true ->
       if removable wc tmp2 then on_disk wc' tmp2 = false
       else fs_node (w_fs wc') (dir_key w tmp2) = fs_node (w_fs wc) (dir_key w tmp2)
            ∧ not_removed_secondary a ∈ w_trace wc').
Proof.
  intros Hp tmp tmp2 a.
  pose proof (prepare_fields S _ _ _ _ _ _ Hp) as (_ & _ & _ & _ & Ht & Ht2).
  cbn zeta in Ht, Ht2. fold tmp in Ht. fold tmp tmp2 in Ht2. fold a in Ht, Ht2.
  destruct (prepare_dirs S _ _ _ _ _ _ Hp) as (wd & we & wf & Hwd & Hmt & _).
  fold a in Hmt.
  destruct (make_temp_dirs_flags _ _ _ _ _ _ Ht2 Hmt) as [F1 F2].
  rewrite Ht in F1, F2.
  assert (Hk : ∀ d, dir_key wd d = dir_key w d).
  { intros d. unfold dir_key. now destruct Hwd as (_ & -> & _). }
  rewrite (untouched_on_disk _ _ tmp Hwd) in F1.
  rewrite (untouched_on_disk _ _ tmp2 Hwd), !Hk, F1 in F2.
  split; [exact F1|]. split; [exact F2|].
  intros wc Hcwd wc'. split; [apply cleanup_run|].
  assert (HK : ∀ v d, w_cwd v = w_cwd w -> dir_key v d = dir_key w d).
  { intros v d E. unfold dir_key. now rewrite E. }
  assert (HR : ∀ v d ev, w_cwd v = w_cwd w ->
               w_cwd (attempt_removal d ev v) = w_cwd w).
  { intros. now rewrite attempt_removal_cwd. }
  pose proof (HK _ tmp Hcwd) as Hk1. pose proof (HK _ tmp2 Hcwd) as Hk2.
  (* what the two flags say about the disk at job start *)
  assert (N1 : Locals.tmp_dir_created l = true ->
               fs_exists (w_fs w) (dir_key w tmp) = false).
  { rewrite F1. unfold on_disk. now destruct (fs_exists _ _). }
  assert (N2 : Locals.tmp2_dir_created l = true ->
               fs_exists (w_fs w) (dir_key w tmp2) = false).
  { rewrite F2. unfold on_disk.
    destruct (fs_exists (w_fs w) (dir_key w tmp2)); [discriminate|reflexivity]. }
  assert (N12 : Locals.tmp_dir_created l = true ->
                Locals.tmp2_dir_created l = true ->
                ¬ dir_key w tmp2 `prefix_of` dir_key w tmp).
  { rewrite F2, F1. intros -> H Hpre.
    rewrite (bool_decide_eq_true_2 _ Hpre) in H.
    now rewrite andb_false_r in H. }
  (* one removal, from any world in the job's working directory *)
  assert (Gone : ∀ v d ev, w_cwd v = w_cwd w -> removable v d = true ->
                 on_disk (attempt_removal d ev v) d = false).
  { intros v d ev Hv R. rewrite on_disk_node, (HK _ _ (HR _ _ _ Hv)).
    rewrite attempt_removal_fs, R, (HK _ _ Hv).
    pose proof (removable_key _ _ R) as Hnil. rewrite (HK _ _ Hv) in Hnil.
    apply (fs_exists_delete _ _ Hnil). }
  assert (Kept : ∀ v d ev, removable v d = false ->
                 w_fs (attempt_removal d ev v) = w_fs v ∧
                 ev ∈ w_trace (attempt_removal d ev v)).
  { intros v d ev R. rewrite attempt_removal_fs, attempt_removal_trace, R.
    split; [reflexivity|]. rewrite elem_of_app, !elem_of_cons. tauto. }
  assert (Other : ∀ v d ev k, w_cwd v = w_cwd w -> k ≠ dir_key w d ->
                  fs_node (w_fs (attempt_removal d ev v)) k = fs_node (w_fs v) k).
  { intros v d ev k Hv Hne. apply attempt_removal_node. now rewrite (HK _ _ Hv). }
  subst wc'. rewrite (cleanup_eq l wc tmp2 Ht2). cbn zeta. fold a. rewrite Ht.
  set (ev1 := not_removed_primary a). set (ev2 := not_removed_secondary a).
  destruct (Locals.tmp_dir_created l) eqn:E1,
           (Locals.tmp2_dir_created l) eqn:E2.
  - (* both are tried, the temp directory first *)
    specialize (N1 eq_refl). specialize (N2 eq_refl).
    specialize (N12 eq_refl eq_refl).
    assert (Hne : dir_key w tmp ≠ dir_key w tmp2).
    { intros E. apply N12. now rewrite E. }
    pose proof (HR _ tmp ev1 Hcwd) as HcA.
    assert (Hrem : removable (attempt_removal tmp ev1 wc) tmp2
                   = removable wc tmp2).
    { apply removable_after_removal. now rewrite Hk1, Hk2. }
    split; [|split].
    + intros k Hex. rewrite (Other _ _ _ _ HcA) by congruence.
      apply (Other _ _ _ _ Hcwd). congruence.
    + intros _. destruct (removable wc tmp) eqn:R1.
      * pose proof (Gone _ _ ev1 Hcwd R1) as G.
        rewrite on_disk_node, (HK _ _ HcA) in G.
        rewrite on_disk_node, (HK _ _ (HR _ tmp2 ev2 HcA)).
        now rewrite (Other _ _ _ _ HcA) by exact Hne.
      * destruct (Kept _ _ ev1 R1) as [Kfs Kev]. split.
        -- rewrite (Other _ _ _ _ HcA) by exact Hne. now rewrite Kfs.
        -- rewrite attempt_removal_trace, elem_of_app. now left.
    + intros _. rewrite <- Hrem.
      destruct (removable (attempt_removal tmp ev1 wc) tmp2) eqn:R2.
      * apply (Gone _ _ _ HcA R2).
      * destruct (Kept _ _ ev2 R2) as [Kfs Kev]. split; [|exact Kev].
        rewrite Kfs. apply (Other _ _ _ _ Hcwd). congruence.
  - (* only the temp directory is tried *)
    specialize (N1 eq_refl).
    split; [|split; [|discriminate]].
    + intros k Hex. apply (Other _ _ _ _ Hcwd). congruence.
    + intros _. destruct (removable wc tmp) eqn:R1.
      * apply (Gone _ _ _ Hcwd R1).
      * destruct (Kept _ _ ev1 R1) as [Kfs Kev]. now rewrite Kfs.
  - (* only the secondary temp directory is tried *)
    specialize (N2 eq_refl).
    split; [|split; [discriminate|]].
    + intros k Hex. apply (Other _ _ _ _ Hcwd). congruence.
    + intros _. destruct (removable wc tmp2) eqn:R2.
      * apply (Gone _ _ _ Hcwd R2).
      * destruct (Kept _ _ ev2 R2) as [Kfs Kev]. now rewrite Kfs.
  - (* nothing is tried *)
    split; [reflexivity|]. split; discriminate.
Qed.

End OwnershipClaim.

(** ** The statements on concrete jobs *)

Module Runs.

Import Toy.

Abbreviation with_key := (services [7] idle_engine).
Abbreviation without_key := (services [] idle_engine).
Abbreviation failing := (services [7] broken_engine).

(** A job whose preparation returns has locals and a world at line 144. *)
Lemma reached_line_144 (r : (Exn + Locals.t crypto) * World) :
  match r with (inr _, _) => true | (inl _, _) => false end = true ->
  ∃ l w1, r = (inr l, w1).
Proof. destruct r as [[e|l] w1]; [discriminate|eauto]. Qed.

(** Reading a value off the locals and the world a job reached. *)
Lemma reached_eq {A} (f : Locals.t crypto -> World -> A)
    (r : (Exn + Locals.t crypto) * World) l w1 x :
  r = (inr l, w1) ->
  match r with (inr l', w') => Some (f l' w') | (inl _, _) => None end = Some x ->
  f l w1 = x.
Proof. intros ->. now intros [= ->]. Qed.

Lemma no_key_available_holds :
  Params.farmer_public_key job = None ∧
  stored_key without_key (Params.alt_fingerprint job) = None ∧
  get_farmer_public_key without_key None world
    = (inl (RuntimeError no_keys_f), emit EvKeychainFirst world) ∧
  create_plot without_key job root_path None world
    = (inl (RuntimeError no_keys_f), emit EvKeychainFirst world).
Proof.
  pose proof (no_key_available without_key job root_path None world
                eq_refl eq_refl) as (H1 & _ & H3).
  split; [reflexivity|]. split; [reflexivity|]. split; [exact H1|].
  apply (H3 config). reflexivity.
Defined.

(** With both pool inputs given and an empty key store, the job fails for
    want of a farmer key, not for the conflict; with a stored key, the
    conflict is reported only after the key store has been consulted for
    the farmer key. *)
Lemma conflict_is_not_checked_first :
  Params.pool_public_key both_pools_job = Some "0a" ∧
  Params.pool_contract_address both_pools_job = Some "xch1pool" ∧
  create_plot without_key both_pools_job root_path None world
    = (inl (RuntimeError no_keys_f), emit EvKeychainFirst world) ∧
  RuntimeError no_keys_f ≠ RuntimeError choose_one ∧
  create_plot with_key both_pools_job root_path None world
    = (inl (RuntimeError choose_one), emit EvKeychainFirst world).
Proof.
  split; [reflexivity|]. split; [reflexivity|].
  split; [vm_compute; reflexivity|]. split; [discriminate|].
  vm_compute; reflexivity.
Defined.

Lemma conflicting_pool_selection_holds :
  resolve_pool with_key both_pools_job world
    = (inl (RuntimeError choose_one), world) ∧
  create_plot with_key both_pools_job root_path None world
    = (inl (RuntimeError choose_one), emit EvKeychainFirst world).
Proof.
  pose proof (conflicting_pool_selection with_key both_pools_job
                "0a" "xch1pool" eq_refl eq_refl) as [H1 H2].
  split; [apply H1|].
  apply (H2 root_path None world config (get_g1 crypto 71)); reflexivity.
Defined.


Lemma k_size_floor_holds :
  ∃ args' w',
    enforce_size (C:=crypto) small_job config None world = (inr args', w') ∧
    Params.size args' = 22 ∧ last (w_trace w') = Some k_under_22.
Proof.
  destruct (k_size_floor with_key small_job config None 32 world eq_refl)
    as (args' & w' & H & _ & Hlow & _).
  destruct Hlow as (_ & H22 & Hlast); [reflexivity|].
  exists args', w'. auto.
Defined.

(** Two runs with the same size, the same plot ID and the same clock, but
    different [args.filename], resolve to different file names; the name
    of the first is "a.plot" and holds none of the three. *)
Lemma output_name_is_not_derived :
  let seen (l : Locals.t crypto) :=
    (Params.size (Locals.args l), Locals.plot_id l, Locals.dt_string l) in
  fmap seen (locals_of with_key job world)
    = fmap seen (locals_of with_key renamed_job world) ∧
  fmap Locals.dt_string (locals_of with_key job world)
    = Some "2021-06-01-09-05" ∧
  fmap Locals.filename (locals_of with_key job world) = Some "a.plot" ∧
  fmap Locals.filename (locals_of with_key renamed_job world) = Some "b.plot".
Proof. repeat split; vm_compute; reflexivity. Qed.

Lemma output_file_name_holds :
  ∃ l w1,
    prepare with_key job root_path None world = (inr l, w1) ∧
    Locals.full_path l = a_plot ∧ Locals.filename l = path_name a_plot.
Proof.
  destruct (reached_line_144 (prepare with_key job root_path None world))
    as (l & w1 & Hp); [vm_compute; reflexivity|].
  exists l, w1. split; [exact Hp|].
  destruct (output_file_name with_key _ _ _ _ _ _ Hp) as (H1 & H2 & _). auto.
Defined.

Lemma idempotent_skip_holds :
  ∃ l w1,
    prepare with_key job root_path None plotted_world = (inr l, w1) ∧
    on_disk w1 (Locals.full_path l) = true ∧
    fst (run with_key job plotted_world) = inr tt ∧
    engine_calls (snd (run with_key job plotted_world)) = [] ∧
    Locals.tmp_dir_created l = true ∧
    Locals.tmp2_dir_created l = false ∧
    on_disk w1 tmp = true ∧
    rmdir_attempts (snd (run with_key job plotted_world))
      = [EvRmdir ["plots"; "tmp"]] ∧
    on_disk (snd (run with_key job plotted_world)) tmp = false.
Proof.
  destruct (reached_line_144 (prepare with_key job root_path None plotted_world))
    as (l & w1 & Hp); [vm_compute; reflexivity|].
  assert (Hex : on_disk w1 (Locals.full_path l) = true).
  { apply (reached_eq (fun l w => on_disk w (Locals.full_path l)) _ _ _ _ Hp).
    vm_compute. reflexivity. }
  assert (F1 : Locals.tmp_dir_created l = true).
  { apply (reached_eq (fun l _ => Locals.tmp_dir_created l) _ _ _ _ Hp).
    vm_compute. reflexivity. }
  assert (F2 : Locals.tmp2_dir_created l = false).
  { apply (reached_eq (fun l _ => Locals.tmp2_dir_created l) _ _ _ _ Hp).
    vm_compute. reflexivity. }
  assert (Htmp : on_disk w1 tmp = true).
  { apply (reached_eq (fun _ w => on_disk w tmp) _ _ _ _ Hp).
    vm_compute. reflexivity. }
  exists l, w1. split; [exact Hp|]. split; [exact Hex|].
  destruct (idempotent_skip with_key _ _ _ _ _ _ Hp Hex)
    as (_ & _ & Hrun & He & Hrm & Hwc).
  unfold run. rewrite Hrun. cbn [fst snd].
  split; [reflexivity|]. split; [exact He|].
  split; [exact F1|]. split; [exact F2|]. split; [exact Htmp|]. split.
  - rewrite Hrm, F1, F2. vm_compute. reflexivity.
  - rewrite Hwc, F1, F2. cbn zeta.
    apply (reached_eq
             (fun l w =>
                on_disk
                  (closing (Locals.filename l)
                     (attempt_removal (Params.tmp_dir job)
                        (not_removed_primary (Locals.args l))
                        (emit summary (emit (already_exists (Locals.filename l)) w))))
                  tmp) _ _ _ _ Hp).
    vm_compute. reflexivity.
Defined.

Lemma unknown_phase_holds :
  ∃ l w1,
    prepare with_key odd_phase_job root_path None world = (inr l, w1) ∧
    on_disk w1 (Locals.full_path l) = false ∧
    fst (run with_key odd_phase_job world) = inr tt ∧
    engine_calls (snd (run with_key odd_phase_job world)) = [] ∧
    Locals.tmp_dir_created l = true ∧
    Locals.tmp2_dir_created l = false ∧
    on_disk w1 tmp = true ∧
    rmdir_attempts (snd (run with_key odd_phase_job world))
      = [EvRmdir ["plots"; "tmp"]] ∧
    on_disk (snd (run with_key odd_phase_job world)) tmp = false.
Proof.
  destruct (reached_line_144 (prepare with_key odd_phase_job root_path None world))
    as (l & w1 & Hp); [vm_compute; reflexivity|].
  assert (Hex : on_disk w1 (Locals.full_path l) = false).
  { apply (reached_eq (fun l w => on_disk w (Locals.full_path l)) _ _ _ _ Hp).
    vm_compute. reflexivity. }
  assert (F1 : Locals.tmp_dir_created l = true).
  { apply (reached_eq (fun l _ => Locals.tmp_dir_created l) _ _ _ _ Hp).
    vm_compute. reflexivity. }
  assert (F2 : Locals.tmp2_dir_created l = false).
  { apply (reached_eq (fun l _ => Locals.tmp2_dir_created l) _ _ _ _ Hp).
    vm_compute. reflexivity. }
  assert (Htmp : on_disk w1 tmp = true).
  { apply (reached_eq (fun _ w => on_disk w tmp) _ _ _ _ Hp).
    vm_compute. reflexivity. }
  exists l, w1. split; [exact Hp|]. split; [exact Hex|].
  destruct (unknown_phase with_key _ _ _ _ _ _ Hp Hex)
    as (_ & _ & Hrun & He & Hrm & Hwc);
    [discriminate..|].
  unfold run. rewrite Hrun. cbn [fst snd].
  split; [reflexivity|]. split; [exact He|].
  split; [exact F1|]. split; [exact F2|]. split; [exact Htmp|]. split.
  - rewrite Hrm, F1, F2. vm_compute. reflexivity.
  - rewrite Hwc, F1, F2. cbn zeta.
    apply (reached_eq
             (fun l w =>
                on_disk
                  (closing (Locals.filename l)
                     (attempt_removal (Params.tmp_dir odd_phase_job)
                        (not_removed_primary (Locals.args l))
                        (emit summary (emit starting_plot w))))
                  tmp) _ _ _ _ Hp).
    vm_compute. reflexivity.
Defined.

(** The engine fails on a job that created its temp directory: the job ends
    with the engine's exception, no removal has been tried, and the
    directory, empty and removable, is still there. *)
Lemma no_cleanup_after_engine_failure :
  let r := run failing job world in
  fst r = inl (RuntimeError "plotting failed") ∧
  fmap Locals.tmp_dir_created (locals_of failing job world) = Some true ∧
  length (engine_calls (snd r)) = 1%nat ∧
  rmdir_attempts (snd r) = [] ∧
  on_disk world tmp = false ∧
  on_disk (snd r) tmp = true ∧
  removable (snd r) tmp = true.
Proof. repeat split; vm_compute; reflexivity. Qed.

Lemma cleanup_after_dispatch_holds :
  ∃ l w1 wd,
    prepare failing job root_path None world = (inr l, w1) ∧
    dispatch failing l w1 = (inl (RuntimeError "plotting failed"), wd) ∧
    run failing job world = (inl (RuntimeError "plotting failed"), wd) ∧
    rmdir_attempts wd = [].
Proof.
  destruct (reached_line_144 (prepare failing job root_path None world))
    as (l & w1 & Hp); [vm_compute; reflexivity|].
  destruct (dispatch failing l w1) as [[e|[]] wd] eqn:Hd.
  - assert (e = RuntimeError "plotting failed") as ->.
    { apply dispatch_raise_inv in Hd as (c & _ & _ & He & _).
      cbn in He. congruence. }
    exists l, w1, wd. split; [exact Hp|]. split; [exact Hd|].
    destruct (cleanup_after_dispatch failing _ _ _ _ _ _ Hp) as [_ H].
    destruct (H _ _ Hd) as (_ & Hrun & Hr). split; [exact Hrun|exact Hr].
  - exfalso.
    assert (fst (dispatch failing l w1) = inl (RuntimeError "plotting failed")) as H.
    { apply (reached_eq (fun l w => fst (dispatch failing l w)) _ _ _ _ Hp).
      vm_compute. reflexivity. }
    rewrite Hd in H. discriminate.
Defined.

(** Phase 0 in [/work], output asked for in [/plots/final], with
    [args.final_dir] also [/plots/final]: the engine is told [/work]. *)
Lemma final_dir_argument_holds :
  ∃ l w1 c,
    prepare with_key job root_path None world = (inr l, w1) ∧
    selected_call l = Some c ∧
    call_final_dirname c = "/work" ∧
    path_str (path_parent (Params.filename job)) = "/plots/final" ∧
    path_str (Params.final_dir job) = "/plots/final".
Proof.
  destruct (reached_line_144 (prepare with_key job root_path None world))
    as (l & w1 & Hp); [vm_compute; reflexivity|].
  destruct (final_dir_argument with_key _ _ _ _ _ _ Hp) as (_ & _ & Hc & Hd).
  destruct Hd as (c & Hsel & _).
  - apply (reached_eq (fun l w => on_disk w (Locals.full_path l)) _ _ _ _ Hp).
    vm_compute. reflexivity.
  - now left.
  - exists l, w1, c. split; [exact Hp|]. split; [exact Hsel|].
    destruct (Hc c Hsel) as [H0 _]. split; [apply H0; now left|].
    split; reflexivity.
Defined.

(** Temp directory [/plots/a/b], secondary temp directory [/plots/a],
    neither there at job start: the job ends normally, [/plots/a] is still
    there, empty and removable, no removal of it was tried and no warning
    about it was logged. *)
Lemma created_secondary_dir_is_left :
  let r := run with_key nested_job world in
  let tmp2 := mkPath true ["plots"; "a"] in
  fst r = inr tt ∧
  on_disk world tmp2 = false ∧
  on_disk (snd r) tmp2 = true ∧
  removable (snd r) tmp2 = true ∧
  rmdir_attempts (snd r) = [EvRmdir ["plots"; "a"; "b"]] ∧
  filter is_removal_warning (w_trace (snd r)) = [].
Proof. repeat split; vm_compute; reflexivity. Qed.

Lemma directory_ownership_holds :
  ∃ l w1,
    prepare with_key job root_path None world = (inr l, w1) ∧
    Locals.tmp_dir_created l = true ∧
    Locals.tmp2_dir_created l = false ∧
    on_disk (snd (cleanup l w1)) tmp = false.
Proof.
  destruct (reached_line_144 (prepare with_key job root_path None world))
    as (l & w1 & Hp); [vm_compute; reflexivity|].
  destruct (directory_ownership with_key _ _ _ _ _ _ Hp) as (F1 & F2 & Hc).
  assert (Hcwd : w_cwd w1 = w_cwd world).
  { now destruct (obeys_prepare _ _ _ _ _ _ _ Hp) as (H & _). }
  destruct (Hc w1 Hcwd) as (_ & _ & H1 & _).
  exists l, w1. split; [exact Hp|]. split; [exact F1|]. split; [exact F2|].
  specialize (H1 F1).
  assert (R : removable w1 (Params.tmp_dir job) = true).
  { apply (reached_eq (fun _ w => removable w tmp) _ _ _ _ Hp).
    vm_compute. reflexivity. }
  rewrite R in H1. exact H1.
Defined.

End Runs.

(** ** More about the monad: failures and what a run records *)

Lemma bind_inl_inv {A B} (m : M A) (k : A -> M B) w e w2 :
  (m ≫= k) w = (inl e, w2) ->
  m w = (inl e, w2) ∨ ∃ a w1, m w = (inr a, w1) ∧ k a w1 = (inl e, w2).
Proof.
  unfold mbind, M_bind. destruct (m w) as [[e'|a] w1]; intros H.
  - left. now injection H as -> ->.
  - right. now exists a, w1.
Qed.

#[global] Instance emits_only_preorder P : PreOrder (emits_only P).
Proof.
  split.
  - intros w. split; [reflexivity|]. exists []. now rewrite app_nil_r.
  - intros a b c [H1 (d1 & E1 & F1)] [H2 (d2 & E2 & F2)].
    split; [congruence|]. exists (d1 ++ d2).
    rewrite E2, E1, <- app_assoc, forallb_app, F1, F2. auto.
Qed.

#[global] Instance disk_kept_preorder : PreOrder disk_kept.
Proof.
  split.
  - intros w. split; [reflexivity|]. intros k.
    destruct (fs_node (w_fs w) k); auto.
  - intros a b c [H1 K1] [H2 K2]. split; [congruence|]. intros k.
    specialize (K1 k). specialize (K2 k).
    destruct (fs_node (w_fs a) k) as [n|].
    + now rewrite K1 in K2.
    + destruct K1 as [K1|K1]; rewrite K1 in K2; auto.
Qed.

Lemma emit_emits_only (P : Event -> bool) e w :
  P e = true -> emits_only P w (emit e w).
Proof.
  intros H. split; [reflexivity|]. exists [e]. cbn. now rewrite H.
Qed.

Lemma emit_disk_kept e w : disk_kept w (emit e w).
Proof. change (disk_kept w (emit e w)) with (disk_kept w w). reflexivity. Qed.

Lemma obeys_silent {A} R `{!Reflexive R} (m : M A) : silent m -> obeys R m.
Proof. intros H w r w' E. rewrite (H _ _ _ E). reflexivity. Qed.

Lemma obeys_emits_only {A} P e (m : M A) :
  emits e m -> P e = true -> obeys (emits_only P) m.
Proof. intros H He w r w' E. rewrite (H _ _ _ E). now apply emit_emits_only. Qed.

Lemma obeys_emits_disk_kept {A} e (m : M A) : emits e m -> obeys disk_kept m.
Proof. intros H w r w' E. rewrite (H _ _ _ E). apply emit_disk_kept. Qed.

Lemma silent_lift_opt {A} e (o : option A) : silent (lift_opt e o).
Proof. destruct o; intros w r w' E; now inversion E. Qed.

Lemma silent_py_assert b : silent (py_assert b).
Proof. destruct b; intros w r w' E; now inversion E. Qed.

Lemma silent_path_exists p : silent (path_exists p).
Proof. intros w r w' E. now inversion E. Qed.

Lemma silent_path_cwd : silent path_cwd.
Proof. intros w r w' E. now inversion E. Qed.

Lemma silent_datetime_now : silent datetime_now.
Proof. intros w r w' E. now inversion E. Qed.

Lemma silent_attr_of {A} n (o : option A) : silent (attr_of n o).
Proof. apply silent_lift_opt. Qed.

Lemma silent_pure {A} (x : Exn + A) : silent (fun w => (x, w)).
Proof. intros w r w' E. now inversion E. Qed.

Lemma emits_log lvl msg : emits (EvLog lvl msg) (log lvl msg).
Proof. intros w r w' E. now inversion E. Qed.

Lemma emits_print msg : emits (EvPrint msg) (print msg).
Proof. intros w r w' E. now inversion E. Qed.

Create HintDb quiet.

#[global] Hint Resolve silent_lift_opt silent_py_assert silent_path_exists
  silent_path_cwd silent_datetime_now silent_attr_of silent_pure : quiet.

(** Every entry of the old disk is in the new one, and new entries are
    unlocked directories. *)
Lemma fs_mkdirs_kept todo : ∀ above (fs fs' : FS),
  fs_mkdirs above todo fs = Some fs' ->
  ∀ q, match fs !! q with
       | Some n => fs' !! q = Some n
       | None => fs' !! q = None ∨ fs' !! q = Some (NDir false)
       end.
Proof.
  induction todo as [|c todo IH]; intros above fs fs' H q; cbn in H.
  - injection H as <-. destruct (fs !! q); auto.
  - destruct (fs !! (above ++ [c])) as [[|b]|] eqn:Ed; [discriminate| |].
    + exact (IH _ _ _ H q).
    + specialize (IH _ _ _ H q).
      destruct (decide (above ++ [c] = q)) as [<-|Hne].
      * rewrite lookup_insert_eq in IH. rewrite Ed. auto.
      * now rewrite lookup_insert_ne in IH.
Qed.

Lemma obeys_mkdir_disk_kept p : obeys disk_kept (mkdir p).
Proof.
  intros w r w' E. unfold mkdir in E. cbn in E.
  destruct (fs_mkdir (w_fs w) (resolve (w_cwd w) p)) as [fs'|] eqn:Emk.
  - injection E as <- <-. split; [reflexivity|]. intros [|x k]; cbn.
    + reflexivity.
    + exact (fs_mkdirs_kept _ _ _ _ Emk (x :: k)).
  - injection E as <- <-. apply emit_disk_kept.
Qed.

Lemma obeys_mkdir_emits_only P p :
  (∀ k, P (EvMkdir k) = true) -> obeys (emits_only P) (mkdir p).
Proof.
  intros HP w r w' E. unfold mkdir in E. cbn in E.
  destruct (fs_mkdir _ _); injection E as <- <-;
    apply (emit_emits_only P (EvMkdir _)), HP.
Qed.

Lemma obeys_rmdir_emits_only P p :
  (∀ k, P (EvRmdir k) = true) -> obeys (emits_only P) (rmdir p).
Proof.
  intros HP w r w' E. unfold rmdir in E. cbn in E.
  destruct (fs_rmdir _ _); injection E as <- <-;
    apply (emit_emits_only P (EvRmdir _)), HP.
Qed.

(** Walks through a computation for the relations above. *)
Ltac walk_step :=
  match goal with
  | |- obeys _ (mbind _ _) => apply obeys_bind; [apply _ | | intros ?]
  | |- obeys _ (mret _) => apply obeys_ret; apply _
  | |- obeys _ (raise _) => apply obeys_raise; apply _
  | |- obeys _ (try_except _ _) => apply obeys_try_except; [apply _ | | ]
  | |- obeys _ (match ?x with _ => _ end) => destruct x
  | |- obeys _ _ => assumption
  | |- obeys _ _ => apply obeys_silent; [apply _ | solve [auto with quiet]]
  | |- obeys (emits_only _) (log _ _) =>
      apply (obeys_emits_only _ _ _ (emits_log _ _)); reflexivity
  | |- obeys (emits_only _) (print _) =>
      apply (obeys_emits_only _ _ _ (emits_print _)); reflexivity
  | |- obeys disk_kept (log _ _) => apply (obeys_emits_disk_kept _ _ (emits_log _ _))
  | |- obeys disk_kept (print _) => apply (obeys_emits_disk_kept _ _ (emits_print _))
  | |- obeys disk_kept (mkdir _) => apply obeys_mkdir_disk_kept
  | |- obeys (emits_only _) (mkdir _) => apply obeys_mkdir_emits_only; reflexivity
  | |- obeys (emits_only _) (rmdir _) => apply obeys_rmdir_emits_only; reflexivity
  | |- obeys _ _ => solve [auto with quiet]
  end.

Ltac walk := repeat walk_step.

(** ** What a job leaves on disk and in its record *)

Section Record.

Context {C : Crypto} (S : Services C).

Lemma emits_keychain_by_fingerprint fp :
  emits (EvKeychainByFingerprint fp) (keychain_by_fingerprint S fp).
Proof. intros w r w' E. now inversion E. Qed.

Lemma emits_keychain_first : emits EvKeychainFirst (keychain_first S).
Proof. intros w r w' E. now inversion E. Qed.

Lemma obeys_os_token_bytes_disk_kept n : obeys disk_kept (os_token_bytes S n).
Proof.
  intros w r w' E. unfold os_token_bytes in E.
  destruct (token_bytes S n (w_rng w)). injection E as <- <-.
  change (disk_kept w w). reflexivity.
Qed.

Lemma obeys_os_token_bytes_emits_only P n :
  obeys (emits_only P) (os_token_bytes S n).
Proof.
  intros w r w' E. unfold os_token_bytes in E.
  destruct (token_bytes S n (w_rng w)). injection E as <- <-.
  split; [reflexivity|]. exists []. cbn. now rewrite app_nil_r.
Qed.

Lemma obeys_invoke_emits_only P c :
  P (EvEngine c) = true -> obeys (emits_only P) (invoke S c).
Proof.
  intros HP w r w' E. rewrite invoke_run in E. injection E as <- <-.
  apply (emit_emits_only P _ w HP).
Qed.

Hint Resolve obeys_os_token_bytes_disk_kept obeys_os_token_bytes_emits_only
  : quiet.

Hint Extern 1 (obeys disk_kept (keychain_by_fingerprint _ _)) =>
  apply (obeys_emits_disk_kept _ _ (emits_keychain_by_fingerprint _)) : quiet.
Hint Extern 1 (obeys disk_kept (keychain_first _)) =>
  apply (obeys_emits_disk_kept _ _ emits_keychain_first) : quiet.
Hint Extern 1 (obeys (emits_only _) (keychain_by_fingerprint _ _)) =>
  apply (obeys_emits_only _ _ _ (emits_keychain_by_fingerprint _)); reflexivity
  : quiet.
Hint Extern 1 (obeys (emits_only _) (keychain_first _)) =>
  apply (obeys_emits_only _ _ _ emits_keychain_first); reflexivity : quiet.
Hint Extern 1 (obeys (emits_only _) (invoke _ _)) =>
  apply obeys_invoke_emits_only; reflexivity : quiet.

Lemma obeys_prepare_disk_kept args root tpk :
  obeys disk_kept (prepare S args root tpk).
Proof.
  unfold prepare, resolve_farmer_key, resolve_pool, get_farmer_public_key,
    get_pool_public_key, g1_from_hex, enforce_size, log_plan, make_temp_dirs,
    choose_sk, derive_identity.
  walk.
Qed.

(** X8.  Before it looks for the output file, the job changes nothing that was
    on disk and adds nothing but unlocked directories, whether it gets to
    line 144 or fails on the way. *)
Theorem preparation_keeps_disk args root tpk w r w' :
  prepare S args root tpk w = (r, w') ->
  w_cwd w' = w_cwd w ∧
  ∀ k, match fs_node (w_fs w) k with
       | Some n => fs_node (w_fs w') k = Some n
       | None => fs_node (w_fs w') k = None
                 ∨ fs_node (w_fs w') k = Some (NDir false)
       end.
Proof. intros H. exact (obeys_prepare_disk_kept _ _ _ _ _ _ H). Qed.

Lemma disk_kept_on_disk w w' d :
  disk_kept w w' -> on_disk w d = true -> on_disk w' d = true.
Proof.
  intros [Hcwd Hk] H. unfold on_disk, dir_key, fs_exists in *. rewrite Hcwd.
  specialize (Hk (resolve (w_cwd w) d)).
  apply bool_decide_eq_true in H as [n Hn]. rewrite Hn in Hk.
  apply bool_decide_eq_true. rewrite Hk. eauto.
Qed.

Lemma prepare_full_path args root tpk w l w1 :
  prepare S args root tpk w = (inr l, w1) ->
  Locals.full_path l = Params.filename args.
Proof.
  intros H. pose proof (prepare_fields S _ _ _ _ _ _ H) as (_ & _ & Hf & _).
  apply prepare_inv in H
    as (? & ? & ? & ? & ? & ? & ? & _ & _ & _ & _ & _ & _ & _ & _ & H1 & _).
  cbn zeta in Hf. now rewrite H1.
Qed.

(** X1.  A job started while its output path exists never calls the engine,
    however it ends; if it gets to line 144 it returns normally. *)
Theorem existing_output_never_plots args root tpk w :
  on_disk w (Params.filename args) = true ->
  engine_calls (snd (create_plot S args root tpk w)) = engine_calls w ∧
  (∀ l w1, prepare S args root tpk w = (inr l, w1) ->
           fst (create_plot S args root tpk w) = inr tt).
Proof.
  intros Hex.
  destruct (prepare S args root tpk w) as [[e|l] w1] eqn:Hp.
  - split; [|discriminate]. unfold create_plot.
    rewrite (bind_inl _ _ _ _ _ Hp). cbn.
    now destruct (obeys_prepare S _ _ _ _ _ _ Hp) as (_ & _ & -> & _).
  - assert (Hd : dispatch S l w1
                 = (inr tt, emit (already_exists (Locals.filename l)) w1)).
    { rewrite dispatch_run, (prepare_full_path _ _ _ _ _ _ Hp).
      now rewrite (disk_kept_on_disk _ _ _ (obeys_prepare_disk_kept _ _ _ _ _ _ Hp) Hex). }
    destruct (create_plot_without_engine S _ _ _ _ _ _ _ Hp Hd) as (_ & Hrun & He).
    { now apply engine_calls_emit. }
    rewrite Hrun. split; [exact He|]. intros ? ? _. reflexivity.
Qed.

Lemma engine_calls_engine c w :
  engine_calls (emit (EvEngine c) w) = engine_calls w ++ [EvEngine c].
Proof.
  unfold engine_calls. cbn. rewrite filter_app.
  now rewrite (filter_singleton_True is_engine _ []).
Qed.

(** X2.  A job calls the engine at most once, and then with the call lines
    148-192 select, made because the output path was not there. *)
Theorem at_most_one_engine_call args root tpk w :
  let w' := snd (create_plot S args root tpk w) in
  engine_calls w' = engine_calls w ∨
  ∃ l w1 c,
    prepare S args root tpk w = (inr l, w1) ∧
    on_disk w1 (Locals.full_path l) = false ∧
    selected_call l = Some c ∧
    engine_calls w' = engine_calls w ++ [EvEngine c].
Proof.
  intros w'. subst w'.
  destruct (prepare S args root tpk w) as [[e|l] w1] eqn:Hp.
  - left. unfold create_plot. rewrite (bind_inl _ _ _ _ _ Hp). cbn.
    now destruct (obeys_prepare S _ _ _ _ _ _ Hp) as (_ & _ & -> & _).
  - assert (Hw : engine_calls w1 = engine_calls w)
      by now destruct (obeys_prepare S _ _ _ _ _ _ Hp) as (_ & _ & -> & _).
    assert (Hquiet : ∀ e, is_engine e = false ->
              dispatch S l w1 = (inr tt, emit e w1) ->
              engine_calls (snd (create_plot S args root tpk w)) = engine_calls w).
    { intros e He Hd.
      destruct (create_plot_without_engine S _ _ _ _ _ _ _ Hp Hd) as (_ & -> & H).
      - now apply engine_calls_emit.
      - exact H. }
    pose proof (dispatch_run S l w1) as Hd.
    destruct (on_disk w1 (Locals.full_path l)) eqn:Hex.
    + left. eapply Hquiet; [|exact Hd]. reflexivity.
    + destruct (selected_call l) as [c|] eqn:Hc.
      * right. exists l, w1, c. split; [reflexivity|].
        split; [exact Hex|]. split; [exact Hc|].
        rewrite invoke_run in Hd. cbn zeta in Hd.
        set (r := engine S c (w_cwd (emit starting_plot w1))
                         (w_fs (emit starting_plot w1))) in Hd.
        unfold create_plot. rewrite (bind_inr _ _ _ _ _ Hp).
        destruct (snd r) as [e|].
        -- rewrite (finish_after_raise S _ _ _ _ Hd). cbn [snd].
           change (engine_calls (emit (EvEngine c) (emit starting_plot w1))
                   = engine_calls w ++ [EvEngine c]).
           now rewrite engine_calls_engine, engine_calls_emit, Hw.
        -- rewrite (finish_after_return S _ _ _ Hd). cbn [snd].
           unfold closing. rewrite !engine_calls_emit by reflexivity.
           match goal with
           | |- engine_calls (snd (cleanup l ?v)) = _ =>
               destruct (obeys_cleanup l _ _ _ (cleanup_run l v)) as [_ ->]
           end.
           rewrite engine_calls_emit by reflexivity.
           change (engine_calls (emit (EvEngine c) (emit starting_plot w1))
                   = engine_calls w ++ [EvEngine c]).
           now rewrite engine_calls_engine, engine_calls_emit, Hw.
      * left. eapply Hquiet; [|exact Hd]. reflexivity.
Qed.

(** X3.  What the engine is told, in the caller's terms: the size is max(22, k),
    the secondary temp directory defaults to the temp directory, the final
    directory is as the phase has it, and phase 2 gets neither memo, plot
    ID nor thread count. *)
Theorem engine_call_arguments args root tpk w l w1 c :
  prepare S args root tpk w = (inr l, w1) ->
  selected_call l = Some c ->
  let tmp := path_str (Params.tmp_dir args) in
  let tmp2 := path_str (default (Params.tmp_dir args) (Params.tmp2_dir args)) in
  let cwd := path_str (mkPath true (w_cwd w)) in
  let name := path_name (Params.filename args) in
  let k := Z.max 22 (Params.size args) in
  22 <= call_k c ∧
  (Params.phase args = 0 ∧
   c = create_plot_disk tmp tmp2 cwd name k (Locals.plot_memo l)
         (Locals.plot_id l) (Params.buffer args) (Params.buckets args)
         (Params.stripe_size args) (Params.num_threads args)
         (Params.nobitfield args)
   ∨ Params.phase args = 1 ∧
     c = create_plot_disk_phase1 tmp tmp2 (path_str (Params.final_dir args))
           name k (Locals.plot_memo l) (Locals.plot_id l)
           (Params.buffer args) (Params.buckets args)
           (Params.stripe_size args) (Params.num_threads args)
           (Params.nobitfield args)
   ∨ Params.phase args = 2 ∧
     c = create_plot_disk_phase234 tmp tmp2 cwd name k (Params.buffer args)
           (Params.buckets args) (Params.stripe_size args)
           (Params.nobitfield args)).
Proof.
  intros Hp Hc tmp tmp2 cwd name k.
  pose proof (prepare_fields S _ _ _ _ _ _ Hp)
    as (Hk & Hph & Hfn & Hfd & Ht & Ht2). cbn zeta in *.
  destruct (prepare_dirs S _ _ _ _ _ _ Hp) as (_ & _ & _ & _ & _ & _ & _ & _ & Hcwd).
  pose proof (prepare_inv S _ _ _ _ _ _ Hp)
    as (? & ? & ? & ? & ? & ? & ? & _ & _ & _ & _ & _ & _ & _ & _ & _ & Hname & _).
  assert (Hrest : Params.buffer (Locals.args l) = Params.buffer args ∧
                  Params.buckets (Locals.args l) = Params.buckets args ∧
                  Params.stripe_size (Locals.args l) = Params.stripe_size args ∧
                  Params.num_threads (Locals.args l) = Params.num_threads args ∧
                  Params.nobitfield (Locals.args l) = Params.nobitfield args).
  { rewrite (prepare_args S _ _ _ _ _ _ Hp). cbn zeta. unfold default_tmp2_dir.
    destruct (Params.tmp2_dir args); cbn;
      destruct (Params.size args <? 22)%Z; repeat split; reflexivity. }
  destruct Hrest as (Hb & Hu & Hs & Hn & He).
  unfold selected_call in Hc.
  rewrite Hph, Hk, Ht, Ht2, Hfd, Hcwd, Hname, Hfn, Hb, Hu, Hs, Hn, He in Hc.
  cbn [str_opt] in Hc. fold tmp tmp2 cwd name k in Hc.
  assert (22 <= k) by (subst k; lia).
  destruct (Z.eqb_spec (Params.phase args) 0) as [E0|E0];
    [|destruct (Z.eqb_spec (Params.phase args) 1) as [E1|E1];
      [|destruct (Z.eqb_spec (Params.phase args) 2) as [E2|E2]]];
    inversion Hc; subst c; cbn [call_k]; auto 10.
Qed.

End Record.

(** ** How a job fails *)

Lemma bind_assoc {A B D} (m : M A) (f : A -> M B) (g : B -> M D) w :
  ((m ≫= f) ≫= g) w = (m ≫= (fun a => f a ≫= g)) w.
Proof. unfold mbind, M_bind. now destruct (m w) as [[e|a] w1]. Qed.

Lemma bind_cong {A B} (m : M A) (k1 k2 : A -> M B) w :
  (∀ a w1, k1 a w1 = k2 a w1) -> (m ≫= k1) w = (m ≫= k2) w.
Proof. intros H. unfold mbind, M_bind. destruct (m w) as [[e|a] w1]; auto. Qed.

Section Failures.

Context {C : Crypto} (S : Services C).

(** [prepare] is lines 48-102 followed by lines 104-142. *)
Lemma prepare_split args root tpk w :
  prepare S args root tpk w
  = (h ← prepare_head S args root tpk; prepare_tail S tpk h) w.
Proof.
  unfold prepare, prepare_head.
  repeat (rewrite bind_assoc; apply bind_cong; intros;
          try match goal with a : (_ * _)%type |- _ => destruct a end).
  reflexivity.
Qed.


End Failures.

Section FailureTheorems.

Context {C : Crypto} (S : Services C).




(** X5.  With test keys given the job cannot get past line 113: it never
    returns normally, never calls the engine and never removes a
    directory; once lines 48-109 have run it ends with [NameError], the
    directories it created still in place. *)
Theorem test_keys_stop_the_job args root ks w :
  let r := create_plot S args root (Some ks) w in
  fst r ≠ inr tt ∧
  engine_calls (snd r) = engine_calls w ∧
  rmdir_attempts (snd r) = rmdir_attempts w ∧
  (∀ h we wf,
     prepare_head S args root (Some ks) w = (inr h, we) ->
     mkdir (mkPath true (w_cwd we)) we = (inr tt, wf) ->
     fst r = inl (NameError "num") ∧ w_fs (snd r) = w_fs wf).
Proof.
  intros r. subst r.
  destruct (prepare S args root (Some ks) w) as [[e|l] w1] eqn:Hp.
  - unfold create_plot. rewrite (bind_inl _ _ _ _ _ Hp). cbn [fst snd].
    destruct (obeys_prepare S _ _ _ _ _ _ Hp) as (_ & _ & He & Hr).
    split; [discriminate|]. split; [exact He|]. split; [exact Hr|].
    intros [[[a fpk] [pk ph]] [c1 c2]] we wf Hh Hmk.
    rewrite prepare_split, (bind_inr _ _ _ _ _ Hh) in Hp.
    unfold prepare_tail in Hp.
    rewrite (bind_inr _ _ we (mkPath true (w_cwd we)) we) in Hp by reflexivity.
    rewrite (bind_inr _ _ _ _ _ Hmk) in Hp.
    cbn in Hp. now injection Hp as <- <-.
  - exfalso. rewrite prepare_split in Hp.
    apply bind_inr_inv in Hp as ([[[a fpk] [pk ph]] [c1 c2]] & we & _ & Hp).
    unfold prepare_tail in Hp.
    apply bind_inr_inv in Hp as (? & ? & _ & Hp).
    apply bind_inr_inv in Hp as (? & ? & _ & Hp).
    apply bind_inr_inv in Hp as (? & ? & _ & Hp).
    apply bind_inr_inv in Hp as (? & ? & _ & Hp).
    apply bind_inr_inv in Hp as (? & ? & Hsk & _). discriminate.
Qed.

(** X6.  With the farmer key given in hex, neither pool input given and no key
    in the key store, the job fails with the "No keys ... -p" error of
    [get_pool_public_key], after one key-store lookup and before anything
    is logged or created. *)
Theorem no_pool_key_available args root tpk w s b fpk cfg :
  load_config S root (config_path_for_filename S root "config.yaml") = inr cfg ->
  Params.farmer_public_key args = Some s ->
  bytes_fromhex s = Some b -> g1_from_bytes C b = Some fpk ->
  Params.pool_public_key args = None ->
  Params.pool_contract_address args = None ->
  stored_key S (Params.alt_fingerprint args) = None ->
  get_pool_public_key S (Params.alt_fingerprint args) w
    = (inl (RuntimeError no_keys_p),
       emit (lookup_event (Params.alt_fingerprint args)) w) ∧
  create_plot S args root tpk w
    = (inl (RuntimeError no_keys_p),
       emit (lookup_event (Params.alt_fingerprint args)) w).
Proof.
  intros Hcfg Hf Hb Hg Hpk Haddr Hstore.
  assert (Hget : get_pool_public_key S (Params.alt_fingerprint args) w
                 = (inl (RuntimeError no_keys_p),
                    emit (lookup_event (Params.alt_fingerprint args)) w)).
  { rewrite get_pool_public_key_run, Hstore. reflexivity. }
  split; [exact Hget|].
  destruct (default_tmp2_dir_keys args) as (Ef & Ea & Ep & Ec).
  apply (create_plot_pool_failure S _ _ _ _ cfg fpk w _ _ Hcfg).
  - unfold resolve_farmer_key, g1_from_hex. rewrite Ef, Hf, Hb. cbn.
    unfold mbind, M_bind. cbn. now rewrite Hg.
  - unfold resolve_pool. rewrite Ep, Ec, Hpk, Haddr, Ea.
    apply bind_inl. now apply bind_inl.
Qed.

End FailureTheorems.

(** ** Keys, identity and the debug overrides *)

Lemma no_lookup_among d :
  forallb not_keychain d = true -> filter is_keychain d = [].
Proof.
  induction d as [|e d IH]; [reflexivity|]. intros Hd. cbn in Hd.
  apply andb_true_iff in Hd as [He Hd].
  rewrite filter_cons_False; [now apply IH|].
  unfold not_keychain in He.
  destruct (is_keychain e); [discriminate|exact id].
Qed.

Lemma emits_only_no_lookup w w' :
  emits_only not_keychain w w' -> keychain_lookups w' = keychain_lookups w.
Proof.
  intros [_ (d & E & Hd)]. unfold keychain_lookups.
  now rewrite E, filter_app, (no_lookup_among _ Hd), app_nil_r.
Qed.

(** One byte written as two hexadecimal digits reads back as that byte. *)
Lemma bytes_fromhex_byte b rest :
  bytes_fromhex (hex_of_byte b +:+ rest)
  = match bytes_fromhex rest with Some tl => Some (b :: tl) | None => None end.
Proof. destruct b; reflexivity. Qed.

(** [bytes.fromhex(b.hex()) == b] *)
Lemma bytes_fromhex_hex b : bytes_fromhex (bytes_hex b) = Some b.
Proof.
  induction b as [|x b IH]; [reflexivity|].
  cbn [bytes_hex foldr]. fold (bytes_hex b).
  now rewrite bytes_fromhex_byte, IH.
Qed.

Section Identity.

Context {C : Crypto} (S : Services C).

Hint Resolve obeys_os_token_bytes_disk_kept obeys_os_token_bytes_emits_only
  : quiet.
Hint Extern 1 (obeys (emits_only _) (invoke _ _)) =>
  apply obeys_invoke_emits_only; reflexivity : quiet.

(** X7.  A job given its farmer key in hex and one of the two pool inputs never
    consults the key store, however it ends. *)
Theorem explicit_keys_skip_keystore args root tpk w s :
  Params.farmer_public_key args = Some s ->
  is_Some (Params.pool_public_key args)
  ∨ is_Some (Params.pool_contract_address args) ->
  keychain_lookups (snd (create_plot S args root tpk w)) = keychain_lookups w.
Proof.
  intros Hf Hpool. apply emits_only_no_lookup.
  destruct (default_tmp2_dir_keys args) as (Ef & _ & Ep & Ec).
  assert (HA : obeys (emits_only not_keychain)
                 (resolve_farmer_key S (default_tmp2_dir args))).
  { unfold resolve_farmer_key, g1_from_hex. rewrite Ef, Hf. walk. }
  assert (HB : obeys (emits_only not_keychain)
                 (resolve_pool S (default_tmp2_dir args))).
  { unfold resolve_pool, g1_from_hex. rewrite Ep, Ec.
    destruct (Params.pool_public_key args), (Params.pool_contract_address args);
      [| | |destruct Hpool as [[? [=]]|[? [=]]]]; walk. }
  assert (H : obeys (emits_only not_keychain) (create_plot S args root tpk)).
  { unfold create_plot, prepare, finish, dispatch, cleanup, enforce_size,
      log_plan, make_temp_dirs, choose_sk, derive_identity.
    walk. }
  destruct (create_plot S args root tpk w) as [r w'] eqn:E.
  exact (H _ _ _ E).
Qed.

(** What lines 104-142 went through when they return the locals [l]. *)
Lemma prepare_tail_inv tpk a fpk pk ph c1 c2 we l w1 :
  prepare_tail S tpk (a, fpk, (pk, ph), (c1, c2)) we = (inr l, w1) ->
  ∃ w4,
    derive_identity a fpk pk ph (Locals.sk l)
      (generate_plot_public_key C
         (get_g1 C (master_sk_to_local_sk C (Locals.sk l))) fpk) w4
    = (inr (Locals.plot_id l, Locals.plot_memo l), w1) ∧
    Locals.args l = a ∧ Locals.farmer_public_key l = fpk ∧
    Locals.pool_public_key l = pk ∧
    Locals.pool_contract_puzzle_hash l = ph ∧
    Locals.plot_public_key l
    = generate_plot_public_key C
        (get_g1 C (master_sk_to_local_sk C (Locals.sk l))) fpk.
Proof.
  unfold prepare_tail. intros H.
  apply bind_inr_inv in H as (? & ? & _ & H).
  apply bind_inr_inv in H as (? & ? & _ & H).
  apply bind_inr_inv in H as (? & ? & _ & H).
  apply bind_inr_inv in H as (? & ? & _ & H).
  apply bind_inr_inv in H as (sk & w4 & _ & H).
  apply bind_inr_inv in H as ([pid pm] & w5 & Hid & H).
  apply bind_inr_inv in H as (now & w6 & Hnow & H).
  injection Hnow as <- <-. injection H as <- <-. cbn.
  exists w4. auto 10.
Qed.

(** Lines 121-140, read backwards from what they return. *)
Lemma derive_identity_inv a (fpk : G1Element C) pk ph sk w i m w' :
  derive_identity a fpk pk ph sk
    (generate_plot_public_key C (get_g1 C (master_sk_to_local_sk C sk)) fpk) w
  = (inr (i, m), w') ->
  (∃ di dm, derived_identity fpk pk ph sk = Some (di, dm) ∧
            (Params.plotid a = None -> i = di) ∧
            (Params.memo a = None -> m = dm)) ∧
  (∀ s, Params.plotid a = Some s ->
        bytes_fromhex s = Some i ∧ length i = 32%nat) ∧
  (∀ s, Params.memo a = Some s -> bytes_fromhex s = Some m) ∧
  last (w_trace w') = Some (EvLog INFO ("Memo: " +:+ bytes_hex m)).
Proof.
  unfold derive_identity. intros H.
  apply bind_inr_inv in H as ([di dm] & w1 & Hd & H).
  apply bind_inr_inv in H as (i' & w2 & Hi & H).
  apply bind_inr_inv in H as (m' & w3 & Hm & H).
  apply bind_inr_inv in H as ([] & w4 & Hlog & H).
  injection H as <- <- <-. injection Hlog as <-.
  assert (Hderived : derived_identity fpk pk ph sk = Some (di, dm)).
  { unfold derived_identity. destruct pk as [pk|]; [now injection Hd as <- <- _|].
    destruct ph as [ph|]; [now injection Hd as <- <- _|discriminate]. }
  assert (Hplot : (Params.plotid a = None -> i' = di) ∧
                  (∀ s, Params.plotid a = Some s ->
                        bytes_fromhex s = Some i' ∧ length i' = 32%nat)).
  { destruct (Params.plotid a) as [s|].
    - split; [discriminate|]. intros ? [= <-].
      apply bind_inr_inv in Hi as ([] & ? & _ & Hi).
      apply bind_inr_inv in Hi as (b & ? & Hb & Hi).
      apply lift_opt_inr_inv in Hb as [Hb _].
      apply lift_opt_inr_inv in Hi as [Hi _].
      unfold bytes32 in Hi. destruct (decide (length b = 32%nat)); [|discriminate].
      injection Hi as <-. auto.
    - injection Hi as <- _. split; [auto|discriminate]. }
  assert (Hmemo : (Params.memo a = None -> m' = dm) ∧
                  (∀ s, Params.memo a = Some s -> bytes_fromhex s = Some m')).
  { destruct (Params.memo a) as [s|].
    - split; [discriminate|]. intros ? [= <-].
      apply bind_inr_inv in Hm as ([] & ? & _ & Hm).
      now apply lift_opt_inr_inv in Hm as [Hm _].
    - injection Hm as <- _. split; [auto|discriminate]. }
  destruct Hplot as [P1 P2], Hmemo as [M1 M2].
  split; [eauto 10|]. split; [exact P2|]. split; [exact M2|].
  cbn. apply last_snoc.
Qed.

Lemma prepare_identity args root tpk w l w1 :
  prepare S args root tpk w = (inr l, w1) ->
  ∃ w4 w5,
    derive_identity (Locals.args l) (Locals.farmer_public_key l)
      (Locals.pool_public_key l) (Locals.pool_contract_puzzle_hash l)
      (Locals.sk l)
      (generate_plot_public_key C
         (get_g1 C (master_sk_to_local_sk C (Locals.sk l)))
         (Locals.farmer_public_key l)) w4
    = (inr (Locals.plot_id l, Locals.plot_memo l), w5) ∧
    w5 = w1 ∧
    Locals.plot_public_key l
    = generate_plot_public_key C
        (get_g1 C (master_sk_to_local_sk C (Locals.sk l)))
        (Locals.farmer_public_key l).
Proof.
  intros H. rewrite prepare_split in H.
  apply bind_inr_inv in H as ([[[a fpk] [pk ph]] [c1 c2]] & we & _ & H).
  apply prepare_tail_inv in H as (w4 & Hd & <- & <- & <- & <- & Hppk).
  exists w4, w1. auto.
Qed.

(** X9.  The plot public key combines the local key of the plot's secret key
    with the farmer key; without overrides, plot ID and memo are built from
    the same pool value: both from the pool public key when there is one,
    both from the contract puzzle hash otherwise. *)
Theorem plot_identity_variant args root tpk w l w1 :
  prepare S args root tpk w = (inr l, w1) ->
  Locals.plot_public_key l
  = generate_plot_public_key C
      (get_g1 C (master_sk_to_local_sk C (Locals.sk l)))
      (Locals.farmer_public_key l) ∧
  ∃ di dm,
    derived_identity (Locals.farmer_public_key l) (Locals.pool_public_key l)
                     (Locals.pool_contract_puzzle_hash l) (Locals.sk l)
    = Some (di, dm) ∧
    (Params.plotid args = None -> Locals.plot_id l = di) ∧
    (Params.memo args = None -> Locals.plot_memo l = dm).
Proof.
  intros H. pose proof (prepare_args S _ _ _ _ _ _ H) as Ha.
  destruct (prepare_identity _ _ _ _ _ _ H) as (w4 & w5 & Hd & _ & Hppk).
  split; [exact Hppk|].
  apply derive_identity_inv in Hd as ((di & dm & Hv & Hi & Hm) & _).
  exists di, dm. split; [exact Hv|].
  assert (Params.plotid (Locals.args l) = Params.plotid args ∧
          Params.memo (Locals.args l) = Params.memo args) as [Ei Em].
  { rewrite Ha. cbn zeta. unfold default_tmp2_dir.
    destruct (Params.tmp2_dir args); cbn;
      destruct (Params.size args <? 22)%Z; split; reflexivity. }
  rewrite Ei in Hi. rewrite Em in Hm. auto.
Qed.

(** X10.  The debug overrides: a plot ID given in hex replaces the derived one
    and must decode to 32 bytes for the job to get to line 144; a memo
    given in hex replaces the derived one.  The memo is logged in hex as
    the last line before the output file is looked for, and both values,
    written in hex and given back as overrides, decode to themselves. *)
Theorem debug_overrides args root tpk w l w1 :
  prepare S args root tpk w = (inr l, w1) ->
  (∀ s, Params.plotid args = Some s ->
        bytes_fromhex s = Some (Locals.plot_id l) ∧
        length (Locals.plot_id l) = 32%nat) ∧
  (∀ s, Params.memo args = Some s ->
        bytes_fromhex s = Some (Locals.plot_memo l)) ∧
  last (w_trace w1) = Some (EvLog INFO ("Memo: " +:+ bytes_hex (Locals.plot_memo l))) ∧
  bytes_fromhex (bytes_hex (Locals.plot_memo l)) = Some (Locals.plot_memo l) ∧
  bytes_fromhex (bytes_hex (Locals.plot_id l)) = Some (Locals.plot_id l).
Proof.
  intros H. pose proof (prepare_args S _ _ _ _ _ _ H) as Ha.
  destruct (prepare_identity _ _ _ _ _ _ H) as (w4 & w5 & Hd & -> & _).
  apply derive_identity_inv in Hd as (_ & Hi & Hm & Hlog).
  assert (Params.plotid (Locals.args l) = Params.plotid args ∧
          Params.memo (Locals.args l) = Params.memo args) as [Ei Em].
  { rewrite Ha. cbn zeta. unfold default_tmp2_dir.
    destruct (Params.tmp2_dir args); cbn;
      destruct (Params.size args <? 22)%Z; split; reflexivity. }
  rewrite Ei in Hi. rewrite Em in Hm.
  split; [exact Hi|]. split; [exact Hm|]. split; [exact Hlog|].
  split; apply bytes_fromhex_hex.
Qed.

(** X11.  Cleanup never tries the same directory twice: with no secondary temp
    directory given only the temp directory can be recorded as created, and
    two directories recorded as created are different directories. *)
Theorem no_directory_removed_twice args root tpk w l w1 :
  prepare S args root tpk w = (inr l, w1) ->
  let tmp := Params.tmp_dir args in
  let tmp2 := default tmp (Params.tmp2_dir args) in
  (Params.tmp2_dir args = None -> Locals.tmp2_dir_created l = false) ∧
  NoDup (owned_removals (Locals.tmp_dir_created l) (Locals.tmp2_dir_created l)
                        (dir_key w tmp) (dir_key w tmp2)).
Proof.
  intros Hp tmp tmp2.
  pose proof (prepare_fields S _ _ _ _ _ _ Hp) as (_ & _ & _ & _ & Ht & Ht2).
  cbn zeta in Ht, Ht2. fold tmp in Ht. fold tmp tmp2 in Ht2.
  destruct (prepare_dirs S _ _ _ _ _ _ Hp) as (wd & we & wf & Hwd & Hmt & _).
  destruct (make_temp_dirs_flags _ _ _ _ _ _ Ht2 Hmt) as [F1 F2].
  rewrite Ht in F1, F2.
  assert (Hk : ∀ d, dir_key wd d = dir_key w d).
  { intros d. unfold dir_key. now destruct Hwd as (_ & -> & _). }
  rewrite !Hk in F2.
  assert (Hdiff : Locals.tmp_dir_created l = true ->
                  Locals.tmp2_dir_created l = true ->
                  dir_key w tmp ≠ dir_key w tmp2).
  { intros E1 E2 E. rewrite E1, E in F2.
    rewrite bool_decide_eq_true_2 in F2 by reflexivity.
    rewrite andb_false_r in F2. congruence. }
  split.
  - intros Hnone. destruct (Locals.tmp2_dir_created l) eqn:E2; [|reflexivity].
    destruct (Locals.tmp_dir_created l) eqn:E1.
    + exfalso. apply (Hdiff eq_refl eq_refl). subst tmp2. now rewrite Hnone.
    + subst tmp2. rewrite Hnone in F2. cbn in F2. rewrite <- F1 in F2.
      cbn in F2. discriminate.
  - unfold owned_removals.
    destruct (Locals.tmp_dir_created l) eqn:E1,
             (Locals.tmp2_dir_created l) eqn:E2; cbn.
    + apply NoDup_cons. split; [|apply NoDup_singleton].
      rewrite list_elem_of_singleton. intros [= E]. now apply Hdiff.
    + apply NoDup_singleton.
    + apply NoDup_singleton.
    + apply NoDup_nil_2.
Qed.

End Identity.

(** ** The [create] command *)

Section Command.

Context {C : Crypto} (S : Services C) (Path_of : string -> Path).

Variables (root_path : Path) (size : Z) (override_k : bool)
  (buffer num_threads buckets : Z) (alt_fingerprint : option Z)
  (pool_contract_address farmer_public_key pool_public_key : option string)
  (tmp_dir : string) (tmp2_dir : option string) (final_dir : string)
  (plotid memo : option string) (nobitfield exclude_final_dir : bool)
  (phase : Z).

Hint Resolve obeys_resolve_farmer_key obeys_resolve_pool obeys_enforce_size
  obeys_log_plan obeys_make_temp_dirs obeys_load_config : frame.

Lemma obeys_prepare_head args root tpk :
  obeys calm (prepare_head S args root tpk).
Proof. unfold prepare_head. frame. Qed.

Lemma obeys_create_cmd :
  obeys calm
    (create_cmd S Path_of root_path size override_k buffer num_threads buckets
       alt_fingerprint pool_contract_address farmer_public_key pool_public_key
       tmp_dir tmp2_dir final_dir plotid memo nobitfield exclude_final_dir
       phase).
Proof.
  pose proof obeys_prepare_head.
  unfold create_cmd, create_plot_no_filename. frame.
Qed.

(** What lines 48-102 went through when they return. *)
Lemma prepare_head_inv args root tpk w a fpk pool created we :
  prepare_head S args root tpk w = (inr (a, fpk, pool, created), we) ->
  ∃ wd,
    untouched w wd ∧
    a = (let a0 := default_tmp2_dir args in
         if (Params.size a0 <? 22)%Z then Params.set_size 22 a0 else a0) ∧
    make_temp_dirs a wd = (inr created, we).
Proof.
  unfold prepare_head. intros H.
  apply bind_inr_inv in H as (cfg & w0 & Hcfg & H). injection Hcfg as _ <-.
  apply bind_inr_inv in H as (fpk' & wa & Hf & H).
  apply bind_inr_inv in H as (pool' & wb & Hp & H).
  apply bind_inr_inv in H as (a' & wc & Hs & H).
  apply bind_inr_inv in H as ([] & wd & Hl & H).
  apply bind_inr_inv in H as (created' & we' & Hd & H).
  injection H as <- <- <- <- <-.
  exists wd. split; [|split; [|exact Hd]].
  - transitivity wa; [eapply obeys_resolve_farmer_key; eauto|].
    transitivity wb; [eapply obeys_resolve_pool; eauto|].
    transitivity wc; [eapply obeys_enforce_size; eauto|].
    eapply obeys_log_plan; eauto.
  - now apply enforce_size_inv in Hs.
Qed.

(** When lines 94-102 return, the temp directory is on disk. *)
Lemma make_temp_dirs_exist a wd created we :
  make_temp_dirs a wd = (inr created, we) ->
  w_cwd we = w_cwd wd ∧ on_disk we (Params.tmp_dir a) = true.
Proof.
  intros H. unfold make_temp_dirs in H.
  apply bind_inr_inv in H as (ex & w0 & Hex & H). injection Hex as <- <-.
  apply bind_inr_inv in H as (f1 & wm & H1 & H).
  apply bind_inr_inv in H as (t & w3 & Ht & H).
  apply lift_opt_inr_inv in Ht as [_ ->].
  apply bind_inr_inv in H as (ex2 & w4 & Hex2 & H). injection Hex2 as <- <-.
  apply bind_inr_inv in H as (f2 & w5 & Hf2 & H). injection H as _ <-.
  assert (Hm : w_cwd wm = w_cwd wd ∧ on_disk wm (Params.tmp_dir a) = true).
  { unfold on_disk, dir_key.
    destruct (fs_exists (w_fs wd) (resolve (w_cwd wd) (Params.tmp_dir a))) eqn:E1;
      cbn in H1.
    - injection H1 as _ <-. auto.
    - apply bind_inr_inv in H1 as ([] & w6 & Hmk & H1). injection H1 as _ <-.
      unfold mkdir in Hmk. cbn in Hmk.
      destruct (fs_mkdir (w_fs wd) (resolve (w_cwd wd) (Params.tmp_dir a)))
        as [fs'|] eqn:Emk; [|discriminate].
      injection Hmk as <-. cbn. split; [reflexivity|].
      rewrite (fs_mkdir_exists _ _ _ Emk).
      rewrite (bool_decide_eq_true_2 _ (reflexivity _)). apply orb_true_r. }
  destruct Hm as [Hc Hon].
  destruct (fs_exists (w_fs wm) (resolve (w_cwd wm) t)) eqn:E2; cbn in Hf2.
  - injection Hf2 as _ <-. auto.
  - apply bind_inr_inv in Hf2 as ([] & w6 & Hmk & Hf2). injection Hf2 as _ <-.
    unfold mkdir in Hmk. cbn in Hmk.
    destruct (fs_mkdir (w_fs wm) (resolve (w_cwd wm) t)) as [fs'|] eqn:Emk;
      [|discriminate].
    injection Hmk as <-. cbn. split; [exact Hc|].
    unfold on_disk, dir_key in *. cbn.
    now rewrite (fs_mkdir_exists _ _ _ Emk), Hon.
Qed.

(** X14.  A size the gates of lines 151-157 reject ends the command with
    [NameError] ([sys] is used and never imported), after the messages are
    printed and before [create_plot] is entered. *)
Theorem create_cmd_rejects_small_sizes w :
  let run := create_cmd S Path_of root_path size override_k buffer
               num_threads buckets alt_fingerprint pool_contract_address
               farmer_public_key pool_public_key tmp_dir tmp2_dir final_dir
               plotid memo nobitfield exclude_final_dir phase in
  (size < 32 -> override_k = false ->
   run w = (inl (NameError "sys"),
            emit (EvPrint "If you are testing and you want to use smaller size please add the --override-k flag.")
                 (emit (EvPrint "k=32 is the minimum size for farming.") w))) ∧
  (size < 25 -> override_k = true ->
   run w = (inl (NameError "sys"),
            emit (EvPrint "Error: The minimum k size allowed from the cli is k=25.") w)).
Proof.
  intros run. subst run. unfold create_cmd. split; intros Hk ->.
  - apply Z.ltb_lt in Hk. rewrite Hk. reflexivity.
  - assert ((size <? 32)%Z = true) as -> by (apply Z.ltb_lt; lia).
    apply Z.ltb_lt in Hk. rewrite Hk. reflexivity.
Qed.

(** X15.  The command never returns normally, never calls the engine and never
    removes a directory: class [Params] sets no [filename], so a job that
    gets through lines 48-102 stops at line 104. *)
Theorem create_cmd_never_plots w :
  let r := create_cmd S Path_of root_path size override_k buffer
             num_threads buckets alt_fingerprint pool_contract_address
             farmer_public_key pool_public_key tmp_dir tmp2_dir final_dir
             plotid memo nobitfield exclude_final_dir phase w in
  fst r ≠ inr tt ∧
  engine_calls (snd r) = engine_calls w ∧
  rmdir_attempts (snd r) = rmdir_attempts w.
Proof.
  intros r.
  assert (Hcalm : calm w (snd r)).
  { destruct r as [x w'] eqn:E. exact (obeys_create_cmd _ _ _ E). }
  destruct Hcalm as (_ & _ & He & Hr). split; [|auto].
  subst r. unfold create_cmd, create_plot_no_filename, print, raise.
  destruct (_ && _); [discriminate|]. destruct (_ && _); [discriminate|].
  unfold mbind, M_bind.
  destruct (prepare_head _ _ _ _ _) as [[e|h] we]; discriminate.
Qed.

(** X16.  A size the gates accept reaches [create_plot] unchanged, so lines 78-80
    never raise it; when the keys resolve and the temp directories can be
    made, the job stops at line 104 with [AttributeError], the temp
    directory on disk and no removal tried. *)
Theorem create_cmd_stops_at_filename w h we :
  32 <= size ∨ 25 <= size ∧ override_k = true ->
  let args := cli_params Path_of size buffer num_threads buckets
                alt_fingerprint pool_contract_address farmer_public_key
                pool_public_key tmp_dir tmp2_dir final_dir plotid memo
                nobitfield exclude_final_dir phase in
  prepare_head S args root_path None (emit (EvPrint "create_plot") w)
    = (inr h, we) ->
  create_cmd S Path_of root_path size override_k buffer num_threads buckets
    alt_fingerprint pool_contract_address farmer_public_key pool_public_key
    tmp_dir tmp2_dir final_dir plotid memo nobitfield exclude_final_dir phase w
  = (inl (AttributeError "filename"), we) ∧
  Params.size (fst (fst (fst h))) = size ∧
  on_disk we (Path_of tmp_dir) = true ∧
  rmdir_attempts we = rmdir_attempts w.
Proof.
  intros Hk args Hh.
  assert (Hgates : ((size <? 32)%Z && negb override_k = false) ∧
                   ((size <? 25)%Z && override_k = false)).
  { destruct Hk as [Hk|[Hk ->]].
    - assert ((size <? 32)%Z = false) as -> by (apply Z.ltb_ge; lia).
      assert ((size <? 25)%Z = false) as -> by (apply Z.ltb_ge; lia). auto.
    - assert ((size <? 25)%Z = false) as -> by (apply Z.ltb_ge; lia).
      split; [apply andb_false_r|reflexivity]. }
  destruct Hgates as [G1 G2].
  destruct h as [[[a fpk] pool] created].
  pose proof Hh as Hinv.
  apply prepare_head_inv in Hinv as (wd & Hwd & Ha & Hmt).
  assert (Hsize : (Params.size (default_tmp2_dir args) <? 22)%Z = false).
  { unfold default_tmp2_dir. apply Z.ltb_ge.
    destruct (Params.tmp2_dir args); cbn; lia. }
  cbn zeta in Ha. rewrite Hsize in Ha.
  destruct (make_temp_dirs_exist _ _ _ _ Hmt) as [Hc Hon].
  split; [|split; [|split]].
  - unfold create_cmd. rewrite G1, G2. fold args.
    rewrite (bind_inr _ _ w tt (emit (EvPrint "create_plot") w)) by reflexivity.
    unfold create_plot_no_filename. now rewrite (bind_inr _ _ _ _ _ Hh).
  - cbn. subst a. unfold default_tmp2_dir.
    now destruct (Params.tmp2_dir args).
  - replace (Path_of tmp_dir) with (Params.tmp_dir a); [exact Hon|].
    subst a. unfold default_tmp2_dir. now destruct (Params.tmp2_dir args).
  - destruct (obeys_prepare_head _ _ _ _ _ _ Hh) as (_ & _ & _ & ->).
    now apply rmdir_attempts_emit.
Qed.

End Command.

(** ** Errors before any directory is made *)

Section EarlyErrors.

Context {C : Crypto} (S : Services C).

(** X12.  A farmer key given in hex that does not decode stops the job with
    [ValueError] before anything else happens: the key store is not
    consulted, the pool inputs are not looked at, nothing is logged. *)
Theorem invalid_farmer_key args root tpk w cfg s :
  load_config S root (config_path_for_filename S root "config.yaml") = inr cfg ->
  Params.farmer_public_key args = Some s ->
  bytes_fromhex s = None
  ∨ (∃ b, bytes_fromhex s = Some b ∧ g1_from_bytes C b = None) ->
  create_plot S args root tpk w = (inl ValueError, w).
Proof.
  intros Hcfg Hf Hbad.
  apply (create_plot_farmer_failure S _ _ _ _ cfg _ _ Hcfg).
  destruct (default_tmp2_dir_keys args) as (Ef & _).
  unfold resolve_farmer_key, g1_from_hex. rewrite Ef, Hf.
  destruct Hbad as [->|(b & -> & Hg)]; [reflexivity|].
  cbn. unfold mbind, M_bind. cbn. now rewrite Hg.
Qed.

(** X13.  A configuration without [min_mainnet_k_size] stops the job with
    [KeyError] at line 76, once the keys are resolved and before anything
    is made on disk. *)
Theorem missing_config_key args root tpk w cfg fpk wa pool wb :
  load_config S root (config_path_for_filename S root "config.yaml") = inr cfg ->
  cfg !! "min_mainnet_k_size" = None ->
  resolve_farmer_key S (default_tmp2_dir args) w = (inr fpk, wa) ->
  resolve_pool S (default_tmp2_dir args) wa = (inr pool, wb) ->
  create_plot S args root tpk w = (inl (KeyError "min_mainnet_k_size"), wb) ∧
  w_fs wb = w_fs w.
Proof.
  intros Hcfg Hkey Hf Hp. split.
  - unfold create_plot, prepare. apply bind_inl.
    rewrite (bind_inr _ _ w cfg w) by now rewrite Hcfg.
    rewrite (bind_inr _ _ _ _ _ Hf), (bind_inr _ _ _ _ _ Hp).
    destruct pool as [pk ph]. apply bind_inl.
    unfold enforce_size. rewrite Hkey. reflexivity.
  - destruct (obeys_resolve_farmer_key S _ _ _ _ Hf) as (E1 & _).
    destruct (obeys_resolve_pool S _ _ _ _ Hp) as (E2 & _). congruence.
Qed.

End EarlyErrors.

(** ** These statements on concrete jobs *)

Module MoreRuns.

Import Toy.

Abbreviation with_key := (services [7] idle_engine).
Abbreviation without_key := (services [] idle_engine).

Lemma preparation_keeps_disk_holds :
  ∃ l w1,
    prepare with_key nested_job root_path None world = (inr l, w1) ∧
    fs_node (w_fs w1) ["plots"] = Some (NDir false) ∧
    (fs_node (w_fs w1) ["plots"; "a"] = None
     ∨ fs_node (w_fs w1) ["plots"; "a"] = Some (NDir false)).
Proof.
  destruct (Runs.reached_line_144 (prepare with_key nested_job root_path None world))
    as (l & w1 & Hp); [vm_compute; reflexivity|].
  exists l, w1. split; [exact Hp|].
  destruct (preparation_keeps_disk with_key _ _ _ _ _ _ Hp) as [_ Hk].
  split; [exact (Hk ["plots"])|exact (Hk ["plots"; "a"])].
Defined.

Lemma existing_output_never_plots_holds :
  on_disk plotted_world (Params.filename job) = true ∧
  engine_calls (snd (run with_key job plotted_world)) = [].
Proof.
  assert (H : on_disk plotted_world (Params.filename job) = true)
    by (vm_compute; reflexivity).
  split; [exact H|].
  exact (proj1 (existing_output_never_plots with_key job root_path None
                  plotted_world H)).
Defined.

Lemma engine_call_arguments_holds :
  ∃ l w1 c,
    prepare with_key small_job root_path None world = (inr l, w1) ∧
    selected_call l = Some c ∧
    call_k c = 22 ∧
    c = create_plot_disk "/plots/tmp" "/plots/tmp" "/work" "a.plot" 22
          (Locals.plot_memo l) (Locals.plot_id l) 3389 128 65536 2 false.
Proof.
  destruct (Runs.reached_line_144 (prepare with_key small_job root_path None world))
    as (l & w1 & Hp); [vm_compute; reflexivity|].
  destruct (selected_call l) as [c|] eqn:Hc.
  - exists l, w1, c. split; [exact Hp|]. split; [exact Hc|].
    destruct (engine_call_arguments with_key _ _ _ _ _ _ _ Hp Hc)
      as (_ & [[_ H]|[[H _]|[H _]]]); [|discriminate H..].
    rewrite H. split; reflexivity.
  - exfalso.
    assert (match selected_call l with Some _ => true | None => false end
            = true) as H.
    { apply (Runs.reached_eq
               (fun l _ => match selected_call l with
                           | Some _ => true
                           | None => false
                           end) _ _ _ _ Hp).
      vm_compute. reflexivity. }
    rewrite Hc in H. discriminate.
Defined.


Lemma test_keys_stop_the_job_holds :
  ∃ h we wf,
    prepare_head with_key job root_path (Some [1]) world = (inr h, we) ∧
    mkdir (mkPath true (w_cwd we)) we = (inr tt, wf) ∧
    fst (create_plot with_key job root_path (Some [1]) world)
    = inl (NameError "num").
Proof.
  destruct (prepare_head with_key job root_path (Some [1]) world)
    as [[e|h] we] eqn:Hh.
  - exfalso.
    assert (match prepare_head with_key job root_path (Some [1]) world
            with (inr _, _) => true | _ => false end = true) as H
      by (vm_compute; reflexivity).
    rewrite Hh in H. discriminate.
  - destruct (mkdir (mkPath true (w_cwd we)) we) as [[e|[]] wf] eqn:Hmk.
    + exfalso.
      assert (match prepare_head with_key job root_path (Some [1]) world
              with
              | (inr _, v) => match mkdir (mkPath true (w_cwd v)) v with
                              | (inr _, _) => true
                              | _ => false
                              end
              | _ => false
              end = true) as H by (vm_compute; reflexivity).
      rewrite Hh, Hmk in H. discriminate.
    + exists h, we, wf. split; [reflexivity|]. split; [exact Hmk|].
      destruct (test_keys_stop_the_job with_key job root_path [1] world)
        as (_ & _ & _ & H).
      exact (proj1 (H h we wf Hh Hmk)).
Defined.

Lemma no_pool_key_available_holds :
  create_plot without_key farmer_only_job root_path None world
  = (inl (RuntimeError no_keys_p), emit EvKeychainFirst world).
Proof.
  refine (proj2 (no_pool_key_available without_key farmer_only_job root_path
                   None world "2f" [Byte.x2f] 47 config _ _ _ _ _ _ _));
    reflexivity.
Defined.

Lemma explicit_keys_skip_keystore_holds :
  keychain_lookups (snd (create_plot without_key explicit_job root_path None world))
  = [].
Proof.
  apply (explicit_keys_skip_keystore without_key explicit_job root_path None
           world "2f"); [reflexivity|]. left. cbn. eauto.
Defined.

Lemma plot_identity_variant_holds :
  ∃ l w1,
    prepare with_key contract_job root_path None world = (inr l, w1) ∧
    Locals.pool_public_key l = None ∧
    ∃ ph, Locals.pool_contract_puzzle_hash l = Some ph ∧
          Locals.plot_id l
          = calculate_plot_id_ph crypto ph (Locals.plot_public_key l) ∧
          Locals.plot_memo l
          = stream_plot_info_ph crypto ph (Locals.farmer_public_key l)
                                (Locals.sk l).
Proof.
  destruct (Runs.reached_line_144 (prepare with_key contract_job root_path None world))
    as (l & w1 & Hp); [vm_compute; reflexivity|].
  exists l, w1. split; [exact Hp|].
  destruct (plot_identity_variant with_key _ _ _ _ _ _ Hp)
    as (Hppk & di & dm & Hv & Hi & Hm).
  assert (Hpk : Locals.pool_public_key l = None).
  { apply (Runs.reached_eq (fun l _ => Locals.pool_public_key l) _ _ _ _ Hp).
    vm_compute. reflexivity. }
  split; [exact Hpk|].
  unfold derived_identity in Hv. rewrite Hpk in Hv.
  destruct (Locals.pool_contract_puzzle_hash l) as [ph|]; [|discriminate].
  exists ph. split; [reflexivity|]. injection Hv as <- <-.
  rewrite Hppk. split; [apply Hi|apply Hm]; reflexivity.
Defined.

Lemma debug_overrides_holds :
  ∃ l w1,
    prepare with_key override_job root_path None world = (inr l, w1) ∧
    bytes_fromhex plot_id_hex = Some (Locals.plot_id l) ∧
    length (Locals.plot_id l) = 32%nat ∧
    bytes_fromhex "0102" = Some (Locals.plot_memo l).
Proof.
  destruct (Runs.reached_line_144 (prepare with_key override_job root_path None world))
    as (l & w1 & Hp); [vm_compute; reflexivity|].
  exists l, w1. split; [exact Hp|].
  destruct (debug_overrides with_key _ _ _ _ _ _ Hp) as (Hi & Hm & _).
  destruct (Hi plot_id_hex eq_refl) as [H1 H2].
  split; [exact H1|]. split; [exact H2|]. exact (Hm "0102" eq_refl).
Defined.

Lemma no_directory_removed_twice_holds :
  ∃ l w1,
    prepare with_key job root_path None world = (inr l, w1) ∧
    Locals.tmp2_dir_created l = false.
Proof.
  destruct (Runs.reached_line_144 (prepare with_key job root_path None world))
    as (l & w1 & Hp); [vm_compute; reflexivity|].
  exists l, w1. split; [exact Hp|].
  destruct (no_directory_removed_twice with_key _ _ _ _ _ _ Hp) as [H _].
  now apply H.
Defined.

Lemma create_cmd_rejects_small_sizes_holds :
  fst (create with_key 20 false "/plots/tmp" world) = inl (NameError "sys") ∧
  fst (create with_key 20 true "/plots/tmp" world) = inl (NameError "sys").
Proof.
  split.
  - destruct (create_cmd_rejects_small_sizes with_key path_of root_path 20
                false 3389 2 128 None None None None "/plots/tmp" None "."
                None None false false 0 world) as [H _].
    unfold create. rewrite H; [reflexivity|lia|reflexivity].
  - destruct (create_cmd_rejects_small_sizes with_key path_of root_path 20
                true 3389 2 128 None None None None "/plots/tmp" None "."
                None None false false 0 world) as [_ H].
    unfold create. rewrite H; [reflexivity|lia|reflexivity].
Defined.

Lemma create_cmd_stops_at_filename_holds :
  ∃ we,
    create with_key 32 false "/plots/tmp" world
    = (inl (AttributeError "filename"), we) ∧
    on_disk world (path_of "/plots/tmp") = false ∧
    on_disk we (path_of "/plots/tmp") = true ∧
    rmdir_attempts we = [].
Proof.
  destruct (prepare_head with_key
              (cli_params path_of 32 3389 2 128 None None None None
                          "/plots/tmp" None "." None None false false 0)
              root_path None (emit (EvPrint "create_plot") world))
    as [[e|h] we] eqn:Hh.
  - exfalso.
    assert (match prepare_head with_key
                    (cli_params path_of 32 3389 2 128 None None None None
                                "/plots/tmp" None "." None None false false 0)
                    root_path None (emit (EvPrint "create_plot") world)
            with (inr _, _) => true | _ => false end = true) as H
      by (vm_compute; reflexivity).
    rewrite Hh in H. discriminate.
  - exists we.
    destruct (create_cmd_stops_at_filename with_key path_of root_path 32 false
                3389 2 128 None None None None "/plots/tmp" None "." None None
                false false 0 world h we) as (H1 & _ & H3 & H4);
      [left; lia|exact Hh|].
    split; [exact H1|]. split; [vm_compute; reflexivity|].
    split; [exact H3|exact H4].
Defined.

Lemma invalid_farmer_key_holds :
  Params.pool_public_key bad_farmer_job = Some "0a" ∧
  Params.pool_contract_address bad_farmer_job = Some "xch1pool" ∧
  create_plot with_key bad_farmer_job root_path None world
  = (inl ValueError, world).
Proof.
  split; [reflexivity|]. split; [reflexivity|].
  apply (invalid_farmer_key with_key bad_farmer_job root_path None world
           config "zz"); [reflexivity|reflexivity|]. left. reflexivity.
Defined.

Lemma missing_config_key_holds :
  ∃ wb,
    create_plot unconfigured job root_path None world
    = (inl (KeyError "min_mainnet_k_size"), wb) ∧
    w_fs wb = w_fs world.
Proof.
  exists (emit EvKeychainFirst (emit EvKeychainFirst world)).
  apply (missing_config_key unconfigured job root_path None world ∅ 1071
           (emit EvKeychainFirst world) (Some 1072, None));
    reflexivity.
Defined.

End MoreRuns.
